(** * axios-logger: the request/response normalisation pipeline

    A shallow embedding of [src/es/index.js] and the properties of its
    header filter, its two normalisers, its summary line and its
    response and error interceptors.

    JavaScript values are modelled on the fragment the module handles:
    [undefined], [null], booleans, integers and [NaN], strings, arrays
    of strings (the header-name lists) and plain objects.  A plain
    object is a finite map of its own enumerable properties and lives
    in a heap, so that two references to one object alias.  Accessors
    and function-valued properties are outside the model; of
    prototypes, the model knows which names an object inherits, as far
    as lodash looks at them. *)

From Stdlib Require Import ZArith Ascii String.
From stdpp Require Import base tactics option list gmap strings pretty fin_maps.

Local Open Scope string_scope.
Local Open Scope Z_scope.
Local Open Scope list_scope.

(** ** Values, objects, heap *)

(** A location is an index into the heap; an object literal takes the
    next free one. *)
Abbreviation loc := nat.

Inductive value :=
| VUndef
| VNull
| VBool (b : bool)
| VNum (n : Z)
| VNaN
| VStr (s : string)
| VNames (names : list string)
| VRef (l : loc).
Arguments VRef l%_nat.

#[global] Instance value_eq_dec : EqDecision value.
Proof. solve_decision. Defined.

#[global] Instance value_inhabited : Inhabited value := populate VUndef.

Abbreviation obj := (gmap string value).
Abbreviation heap := (list obj).

(** The sink's two severities and one recorded call [logger.level(payload, message)]. *)
Inductive level := LvInfo | LvError.

#[global] Instance level_eq_dec : EqDecision level.
Proof. solve_decision. Defined.

Record entry := Entry { e_level : level; e_payload : value; e_message : string }.

(** The state a handler runs in: the object heap, the wall clock that
    [new Date()] reads (milliseconds since the epoch) and the calls
    received so far by the logger. *)
Record state := State { st_heap : heap; st_clock : Z; st_log : list entry }.

Definition with_heap (h : heap) (st : state) : state :=
  State h (st_clock st) (st_log st).

(** ** Exceptions and the evaluation monad *)

(** What an exception or a rejection carries: a [TypeError] raised by
    the language itself, or a value thrown or rejected by some code. *)
Inductive exn :=
| TypeError
| Thrown (v : value).

Inductive result (A : Type) :=
| Ok (a : A) (st : state)
| Throw (e : exn) (st : state).
Arguments Ok {A} a st.
Arguments Throw {A} e st.

Definition M (A : Type) := state → result A.

Definition ret {A} (a : A) : M A := λ st, Ok a st.
Definition throw {A} (e : exn) : M A := λ st, Throw e st.
Definition bind {A B} (m : M A) (f : A → M B) : M B :=
  λ st, match m st with
        | Ok a st' => f a st'
        | Throw e st' => Throw e st'
        end.

Notation "'let!' x ':=' m 'in' k" := (bind m (λ x, k))
  (at level 10, x name, m at level 100, k at level 200,
   format "'[v' 'let!'  x  ':='  m  'in' '/' k ']'").
Notation "'run!' m 'in' k" := (bind m (λ _, k))
  (at level 10, m at level 100, k at level 200,
   format "'[v' 'run!'  m  'in' '/' k ']'").

Definition final {A} (r : result A) : state :=
  match r with Ok _ st => st | Throw _ st => st end.

Definition is_ok {A} (r : result A) : bool :=
  match r with Ok _ _ => true | Throw _ _ => false end.

(** ** Primitive operations of the language *)

(** [ToBoolean]. *)
Definition truthy (v : value) : bool :=
  match v with
  | VUndef | VNull | VNaN => false
  | VBool b => b
  | VNum n => negb (n =? 0)
  | VStr s => negb (String.eqb s "")
  | VNames _ | VRef _ => true
  end.

(** [a || b] on already evaluated operands. *)
Definition js_or (a b : value) : value := if truthy a then a else b.

(** [ToString], as a template literal applies it. *)
Definition to_string (v : value) : string :=
  match v with
  | VUndef => "undefined"
  | VNull => "null"
  | VBool true => "true"
  | VBool false => "false"
  | VNum n => pretty n
  | VNaN => "NaN"
  | VStr s => s
  | VNames names => String.concat "," names
  | VRef _ => "[object Object]"
  end.

(** The index-keyed properties of an array-like: ["0"], ["1"], ... *)
Definition indexed (vs : list value) : obj :=
  list_to_map (imap (λ i v, (pretty (N.of_nat i), v)) vs).

Definition chars (s : string) : list value :=
  (λ c, VStr (String c "")) <$> list_ascii_of_string s.

(** The own enumerable properties of a value, as [Object.assign] and
    lodash enumerate them; [null], [undefined], numbers and booleans
    have none. *)
Definition own_props (h : heap) (v : value) : obj :=
  match v with
  | VRef l => default ∅ (h !! l)
  | VStr s => indexed (chars s)
  | VNames names => indexed (VStr <$> names)
  | _ => ∅
  end.

Definition nullish (v : value) : bool :=
  match v with VUndef | VNull => true | _ => false end.

(** [v.k] for a property name [k] that is neither an array index nor a
    built-in of a prototype (every name the module reads is of that
    kind): a [TypeError] on [null] and [undefined], the stored value on
    an object, [undefined] elsewhere. *)
Definition get_prop (h : heap) (v : value) (k : string) : option value :=
  match v with
  | VUndef | VNull => None
  | VRef l => Some (default VUndef (default ∅ (h !! l) !! k))
  | _ => Some VUndef
  end.

(** [v.k] where the read does not throw. *)
Definition prop (h : heap) (v : value) (k : string) : value :=
  default VUndef (get_prop h v k).

Definition get (v : value) (k : string) : M value :=
  λ st, match get_prop (st_heap st) v k with
        | Some x => Ok x st
        | None => Throw TypeError st
        end.

(** [v.k = x] in strict mode (the file is an ES module): only an object
    accepts the write; the string arrays of the model are immutable, as
    frozen arrays are. *)
Definition set (v : value) (k : string) (x : value) : M unit :=
  λ st, match v with
        | VRef l =>
            Ok tt (with_heap (alter (λ o, <[k := x]> o) l (st_heap st)) st)
        | _ => Throw TypeError st
        end.

(** An object literal: a new object at the next free location. *)
Definition alloc (o : obj) : M value :=
  λ st, Ok (VRef (length (st_heap st))) (with_heap (st_heap st ++ [o]) st).

(** [Object.assign(target, source)] for a [target] literal built on the
    spot: the source's own properties win over the literal's. *)
Definition Object_assign_new (target : obj) (source : value) : M value :=
  λ st, alloc (own_props (st_heap st) source ∪ target) st.

(** [new Date()]: the current reading of the clock. *)
Definition Date_now : M Z := λ st, Ok (st_clock st) st.

(** [logger.info(payload, message)] and [logger.error(payload, message)]:
    the sink records the call and, by its contract, does not throw. *)
Definition emit (lv : level) (payload : value) (message : string) : M unit :=
  λ st, Ok tt (State (st_heap st) (st_clock st)
                     (st_log st ++ [Entry lv payload message])).

(** [String.prototype.toUpperCase] on ASCII letters. *)
Definition upper_ascii (c : ascii) : ascii :=
  let n := nat_of_ascii c in
  if ((97 <=? n) && (n <=? 122))%nat then ascii_of_nat (n - 32) else c.

Fixpoint upper (s : string) : string :=
  match s with
  | EmptyString => EmptyString
  | String c s' => String (upper_ascii c) (upper s')
  end.

(** [x.toUpperCase()]: only a string has the method. *)
Definition toUpperCase (x : value) : M value :=
  match x with
  | VStr s => ret (VStr (upper s))
  | _ => throw TypeError
  end.

(** ** The library functions the module calls

    [url.parse] of Node, [formatRequest] and [formatResponse] of
    [@softonic/http-log-format], the two conversions of [Date] and
    lodash are not part of these sources: the development is parametric
    in the first three and in what lodash does beyond plain keys.  A
    formatter reads the heap and may allocate in it; any of the
    functions that can throw returns [Raise]. *)

Inductive ext (A : Type) :=
| Ret (a : A)
| Raise (v : value).
Arguments Ret {A} a.
Arguments Raise {A} v.

(** The two fields of [url.parse]'s result that the module reads, each
    a string or [null]. *)
Record parsed_url := ParsedUrl { url_host : value; url_path : value }.

(** [special_member h v k]: the name [k] is more to lodash than an own
    enumerable property of [v] or a name [v] lacks -- [v] inherits it or
    holds it unenumerably ([k in Object(v)] beyond the own enumerable
    properties), or it is one of the keys lodash refuses to write
    ([__proto__], [constructor], [prototype]).  [pick_paths] and
    [omit_paths]: the objects [pick] and [omit] allocate, nested ones
    first and the result last, for a list with a name they do not take
    for a plain key. *)
Class Host := {
  URL_parse : string → ext parsed_url;
  formatRequest : heap → value → ext (value * heap);
  formatResponse : heap → value → ext (value * heap);
  toISOString : Z → string;
  Date_parse : string → option Z;
  special_member : heap → value → string → bool;
  pick_paths : heap → value → list string → list obj * obj;
  omit_paths : heap → value → list string → list obj * obj;
}.

(** *** lodash's [pick] and [omit]

    Both receive the names that follow the object as one flattened
    list: the elements of an array, or the one key any other value
    converts to -- the text [undefined] for a list that is missing. *)
Definition names_of (paths : value) : list string :=
  match paths with
  | VNames names => names
  | v => [to_string v]
  end.

(** A name free of lodash's path syntax: it has no [.] and no [[]. *)
Fixpoint plain (name : string) : bool :=
  match name with
  | EmptyString => true
  | String c rest =>
      negb (Ascii.eqb c "."%char || Ascii.eqb c "["%char) && plain rest
  end.

(** lodash reads a name as a property path ([a.b], [a[0]]) unless it is
    a key of the object or free of the path syntax, and [pick] also
    finds the properties an object inherits.  [takes_key]: the name is
    a key in the plain sense, an own enumerable property of [object] or
    a plain name, and not a special member. *)
Definition takes_key `{Host} (h : heap) (object : value) (name : string)
  : bool :=
  negb (special_member h object name) &&
  (bool_decide (is_Some (own_props h object !! name)) || plain name).

(** On keys in the plain sense the two functions are what their
    documentation says: a new object with the named own properties of
    [object], respectively with all the others. *)
Definition pick_keys (o : obj) (names : list string) : obj :=
  filter (λ kv, kv.1 ∈ names) o.

Definition omit_keys (o : obj) (names : list string) : obj :=
  filter (λ kv, kv.1 ∉ names) o.

(** Several new objects at once, the last of them the result. *)
Definition alloc_nested (cells : list obj * obj) : M value :=
  λ st, Ok (VRef (length cells.1 + length (st_heap st)))
           (with_heap (st_heap st ++ cells.1 ++ [cells.2]) st).

(** [pick(object, paths)]: an empty object for [null] and [undefined];
    the named own properties when every name is taken for a key; what
    the host builds otherwise. *)
Definition pick `{Host} (object paths : value) : M value :=
  λ st,
    let h := st_heap st in
    let names := names_of paths in
    if nullish object then alloc ∅ st
    else if forallb (takes_key h object) names
         then alloc (pick_keys (own_props h object) names) st
         else alloc_nested (pick_paths h object names) st.

(** [omit(object, paths)]: an empty object when [object] has no
    enumerable property to copy ([null] and [undefined] among them);
    the own properties not named when every name is taken for a key;
    what the host builds otherwise. *)
Definition omit `{Host} (object paths : value) : M value :=
  λ st,
    let h := st_heap st in
    let names := names_of paths in
    let own := own_props h object in
    if bool_decide (own = ∅) then alloc ∅ st
    else if forallb (takes_key h object) names
         then alloc (omit_keys own names) st
         else alloc_nested (omit_paths h object names) st.

(** [new Date(v).getTime()]: [None] stands for [NaN]. *)
Definition time_clip (t : Z) : option Z :=
  if bool_decide (Z.abs t ≤ 8640000000000000) then Some t else None.

Definition Date_getTime `{Host} (v : value) : option Z :=
  match v with
  | VUndef | VNaN => None
  | VNull => Some 0
  | VBool b => Some (if b then 1 else 0)
  | VNum n => time_clip n
  | VStr s => Date_parse s
  | VNames _ | VRef _ => Date_parse (to_string v)
  end.

(** [now - t] for a valid date [now] and a time value [t]. *)
Definition elapsed (now : Z) (t : option Z) : value :=
  match t with
  | Some t => VNum (now - t)
  | None => VNaN
  end.

Definition call_format (f : heap → value → ext (value * heap)) (v : value)
  : M value :=
  λ st, match f (st_heap st) v with
        | Ret (r, h') => Ok r (with_heap h' st)
        | Raise e => Throw (Thrown e) st
        end.

(** [URL.parse(v)]: a [TypeError] unless [v] is a string. *)
Definition call_URL_parse `{Host} (v : value) : M parsed_url :=
  match v with
  | VStr s => match URL_parse s with
              | Ret p => ret p
              | Raise e => throw (Thrown e)
              end
  | _ => throw TypeError
  end.

(** ** The module *)

Section AxiosBunyan.
Context `{Host}.

(** [filterHeaders({ headers, whitelistHeaders, blacklistHeaders })] *)
Definition filterHeaders (opts : value) : M value :=
  let! headers := get opts "headers" in
  let! whitelistHeaders := get opts "whitelistHeaders" in
  let! blacklistHeaders := get opts "blacklistHeaders" in
  let! whitelistedHeaders :=
    if truthy whitelistHeaders then pick headers whitelistHeaders
    else ret headers in
  omit whitelistedHeaders blacklistHeaders.

(** [getLoggableRequestFromAxiosResponse({ axiosResponse,
    whitelistRequestHeaders, blacklistRequestHeaders })] *)
Definition getLoggableRequestFromAxiosResponse (opts : value) : M value :=
  let! axiosResponse := get opts "axiosResponse" in
  let! whitelistRequestHeaders := get opts "whitelistRequestHeaders" in
  let! blacklistRequestHeaders := get opts "blacklistRequestHeaders" in
  let! config := get axiosResponse "config" in
  let! timestamp := get config "timestamp" in
  let! request := get axiosResponse "request" in
  let! nativeRequest :=
    Object_assign_new {[ "timestamp" := timestamp ]} request in
  let! loggableRequest := call_format formatRequest nativeRequest in
  let! headers := get loggableRequest "headers" in
  let! fopts := alloc {[ "headers" := headers;
                         "whitelistHeaders" := whitelistRequestHeaders;
                         "blacklistHeaders" := blacklistRequestHeaders ]} in
  let! filtered := filterHeaders fopts in
  run! set loggableRequest "headers" filtered in
  ret loggableRequest.

(** [createClientRequestFromConfig(config)] *)
Definition createClientRequestFromConfig (config : value) : M value :=
  let! timestamp := get config "timestamp" in
  let! headers := get config "headers" in
  let! url := get config "url" in
  let! parsedUrl := call_URL_parse url in
  let! method := get config "method" in
  let! METHOD := toUpperCase method in
  let! merged :=
    Object_assign_new {[ "host" := url_host parsedUrl ]} headers in
  alloc {[ "timestamp" := timestamp;
           "method" := METHOD;
           "url" := url_path parsedUrl;
           "headers" := merged ]}.

(** The object literal [pseudoNativeResponse] of
    [getLoggableResponseFromAxiosResponse], for the clock reading [now]. *)
Definition pseudoNativeResponse
    (now : Z) (requestTimestamp status headers : value) : obj :=
  {[ "timestamp" := VStr (toISOString now);
     "statusCode" := status;
     "headers" := headers;
     "responseTime" := elapsed now (Date_getTime requestTimestamp) ]}.

(** [getLoggableResponseFromAxiosResponse({ axiosResponse,
    whitelistResponseHeaders, blacklistResponseHeaders })] *)
Definition getLoggableResponseFromAxiosResponse (opts : value) : M value :=
  let! axiosResponse := get opts "axiosResponse" in
  let! whitelistResponseHeaders := get opts "whitelistResponseHeaders" in
  let! blacklistResponseHeaders := get opts "blacklistResponseHeaders" in
  let! config := get axiosResponse "config" in
  let! requestTimestamp := get config "timestamp" in
  let! now := Date_now in
  let! status := get axiosResponse "status" in
  let! rheaders := get axiosResponse "headers" in
  let! native :=
    alloc (pseudoNativeResponse now requestTimestamp status rheaders) in
  let! loggableResponse := call_format formatResponse native in
  let! headers := get loggableResponse "headers" in
  let! fopts := alloc {[ "headers" := headers;
                         "whitelistHeaders" := whitelistResponseHeaders;
                         "blacklistHeaders" := blacklistResponseHeaders ]} in
  let! filtered := filterHeaders fopts in
  run! set loggableResponse "headers" filtered in
  ret loggableResponse.

(** [makeRequestLine(request)] *)
Definition makeRequestLine (request : value) : M string :=
  let! h1 := get request "headers" in
  let! headers :=
    if truthy h1 then ret h1
    else let! h2 := get request "_headers" in
         if truthy h2 then ret h2 else alloc ∅ in
  let! hhost := get headers "host" in
  let host := js_or hhost (VStr "") in
  let! u := get request "url" in
  let! url := if truthy u then ret u else get request "path" in
  let! method := get request "method" in
  ret (to_string method +:+ " " +:+ to_string host +:+ to_string url).

(** The options [axiosBunyan] closes over; the logger is the sink of
    the state. *)
Record options := Options {
  whitelistRequestHeaders : value;
  blacklistRequestHeaders : value;
  whitelistResponseHeaders : value;
  blacklistResponseHeaders : value;
}.

Variable o : options.

(** [logResponse(axiosResponse)] *)
Definition logResponse (axiosResponse : value) : M value :=
  let! ropts := alloc {[ "axiosResponse" := axiosResponse;
                         "whitelistRequestHeaders" := whitelistRequestHeaders o;
                         "blacklistRequestHeaders" := blacklistRequestHeaders o ]} in
  let! request := getLoggableRequestFromAxiosResponse ropts in
  let! sopts := alloc {[ "axiosResponse" := axiosResponse;
                         "whitelistResponseHeaders" := whitelistResponseHeaders o;
                         "blacklistResponseHeaders" := blacklistResponseHeaders o ]} in
  let! response := getLoggableResponseFromAxiosResponse sopts in
  let! requestLine := makeRequestLine request in
  let! payload := alloc {[ "request" := request; "response" := response ]} in
  let! statusCode := get response "statusCode" in
  run! emit LvInfo payload (requestLine +:+ " " +:+ to_string statusCode) in
  ret axiosResponse.

(** What a handler hands back with [return Promise.reject(reason)]. *)
Inductive promise := Promise_reject (reason : value).

(** [logError(error)] *)
Definition logError (error : value) : M promise :=
  let! r1 := get error "response" in
  let! request :=
    if truthy r1 then
      let! r := get error "response" in
      getLoggableRequestFromAxiosResponse r
    else
      let! c1 := get error "config" in
      if truthy c1 then
        let! c := get error "config" in
        createClientRequestFromConfig c
      else ret VUndef in
  let! requestLine :=
    if truthy request then makeRequestLine request
    else ret "Undefined client request" in
  let! r2 := get error "response" in
  if truthy r2 then
    let! r := get error "response" in
    let! response := getLoggableResponseFromAxiosResponse r in
    let! payload := alloc {[ "request" := request; "response" := response ]} in
    let! statusCode := get response "statusCode" in
    run! emit LvError payload (requestLine +:+ " " +:+ to_string statusCode) in
    ret (Promise_reject error)
  else
    let! payload := alloc {[ "request" := request; "error" := error ]} in
    run! emit LvError payload (requestLine +:+ " ERROR") in
    ret (Promise_reject error).

End AxiosBunyan.

Section OnRequest.
Context `{Host}.

(** [logRequest(config)] *)
Definition logRequest (config : value) : M value :=
  let! now := Date_now in
  run! set config "timestamp" (VStr (toISOString now)) in
  ret config.

End OnRequest.

(** What the caller of the interceptor chain observes of a handler: the
    returned value fulfils the chain, a returned rejected promise or an
    exception rejects it. *)
Inductive settled :=
| Fulfilled (v : value)
| Rejected (reason : exn).

Definition settle_value (r : result value) : settled :=
  match r with
  | Ok v _ => Fulfilled v
  | Throw e _ => Rejected e
  end.

Definition settle_promise (r : result promise) : settled :=
  match r with
  | Ok (Promise_reject reason) _ => Rejected (Thrown reason)
  | Throw e _ => Rejected e
  end.

(** The calls the sink received between two states. *)
Definition emitted (st st' : state) : list entry :=
  drop (length (st_log st)) (st_log st').

(** ** An instance of the library interface, for the examples *)

(** [scheme://host/path] split at the first [/] after the scheme, as
    [url.parse] does for a URL without credentials, port normalisation
    or fragment; a string without [://] is all path. *)
Definition simple_URL_parse (s : string) : ext parsed_url :=
  match index 0 "://" s with
  | None => Ret (ParsedUrl VNull (VStr s))
  | Some i =>
      let rest := substring (i + 3) (String.length s - (i + 3)) s in
      match index 0 "/" rest with
      | None => Ret (ParsedUrl (VStr rest) (VStr "/"))
      | Some j =>
          Ret (ParsedUrl (VStr (substring 0 j rest))
                         (VStr (substring j (String.length rest - j) rest)))
      end
  end.

(** A formatter that reads the listed fields of its argument into a
    new object. *)
Definition copy_fields (fields : list string) (h : heap) (v : value)
  : ext (value * heap) :=
  Ret (VRef (length h),
       h ++ [list_to_map ((λ k, (k, prop h v k)) <$> fields)]).

(** The proleptic Gregorian calendar: day number since 1970-01-01 to
    year, month, day and back. *)
Definition civil_from_days (z : Z) : Z * Z * Z :=
  let z := z + 719468 in
  let era := Z.div z 146097 in
  let doe := z - era * 146097 in
  let yoe := Z.div (doe - Z.div doe 1460 + Z.div doe 36524 - Z.div doe 146096) 365 in
  let doy := doe - (365 * yoe + Z.div yoe 4 - Z.div yoe 100) in
  let mp := Z.div (5 * doy + 2) 153 in
  let d := doy - Z.div (153 * mp + 2) 5 + 1 in
  let m := if mp <? 10 then mp + 3 else mp - 9 in
  (if m <=? 2 then yoe + era * 400 + 1 else yoe + era * 400, m, d).

Definition days_from_civil (y m d : Z) : Z :=
  let y := if m <=? 2 then y - 1 else y in
  let era := Z.div y 400 in
  let yoe := y - era * 400 in
  let doy := Z.div (153 * (if 2 <? m then m - 3 else m + 9) + 2) 5 + d - 1 in
  let doe := yoe * 365 + Z.div yoe 4 - Z.div yoe 100 + doy in
  era * 146097 + doe - 719468.

Definition pad (w : nat) (n : Z) : string :=
  let s := pretty n in
  String.concat "" (replicate (w - String.length s) "0") +:+ s.

(** [Date.prototype.toISOString] for the years 0000 to 9999. *)
Definition iso_format (t : Z) : string :=
  let '(y, m, d) := civil_from_days (Z.div t 86400000) in
  let ms := Z.modulo t 86400000 in
  pad 4 y +:+ "-" +:+ pad 2 m +:+ "-" +:+ pad 2 d +:+ "T" +:+
  pad 2 (Z.div ms 3600000) +:+ ":" +:+
  pad 2 (Z.modulo (Z.div ms 60000) 60) +:+ ":" +:+
  pad 2 (Z.modulo (Z.div ms 1000) 60) +:+ "." +:+
  pad 3 (Z.modulo ms 1000) +:+ "Z".

Definition digit (c : ascii) : option Z :=
  let n := Z.of_nat (nat_of_ascii c) in
  if (48 <=? n) && (n <=? 57) then Some (n - 48) else None.

Fixpoint number_from (acc : Z) (s : string) : option Z :=
  match s with
  | EmptyString => Some acc
  | String c s' =>
      match digit c with
      | Some k => number_from (10 * acc + k) s'
      | None => None
      end
  end.

Definition field (start len : nat) (s : string) : option Z :=
  number_from 0 (substring start len s).

(** [Date.parse] on the format [toISOString] writes; anything else is
    not a date. *)
Definition iso_parse (s : string) : option Z :=
  y ← field 0 4 s; m ← field 5 2 s; d ← field 8 2 s;
  hh ← field 11 2 s; mm ← field 14 2 s; ss ← field 17 2 s;
  ms ← field 20 3 s;
  let t := days_from_civil y m d * 86400000
           + hh * 3600000 + mm * 60000 + ss * 1000 + ms in
  if String.eqb (iso_format t) s then Some t else None.

(** The properties every object inherits from [Object.prototype], and
    the key [prototype]. *)
Definition object_members : list string :=
  ["constructor"; "__proto__"; "prototype"; "hasOwnProperty";
   "isPrototypeOf"; "propertyIsEnumerable"; "toLocaleString"; "toString";
   "valueOf"; "__defineGetter__"; "__defineSetter__"; "__lookupGetter__";
   "__lookupSetter__"].

(** Of the members of the other prototypes this instance knows
    [length], which strings and arrays hold unenumerably. *)
Definition simple_special_member (h : heap) (v : value) (k : string) : bool :=
  bool_decide (k ∈ object_members) ||
  match v with
  | VStr _ | VNames _ => String.eqb k "length"
  | _ => false
  end.

(** A path [key.rest] split at its first dot. *)
Definition split_path (name : string) : option (string * string) :=
  match index 0 "." name with
  | Some i =>
      Some (substring 0 i name,
            substring (S i) (String.length name - S i) name)
  | None => None
  end.

(** Of paths, this instance knows [key.length] into a header that is a
    string: [pick] builds a nested object with the length for it. *)
Definition simple_pick_paths (h : heap) (object : value) (names : list string)
  : list obj * obj :=
  let own := own_props h object in
  foldl (λ (acc : list obj * obj) name,
           match own !! name with
           | Some v => (acc.1, <[name := v]> acc.2)
           | None =>
               match split_path name with
               | Some (k, rest) =>
                   match own !! k with
                   | Some (VStr s) =>
                       if String.eqb rest "length" then
                         (acc.1 ++ [ {[ "length" :=
                                          VNum (Z.of_nat (String.length s)) ]} ],
                          <[k := VRef (length h + length acc.1)]> acc.2)
                       else acc
                   | _ => acc
                   end
               | None => acc
               end
           end) ([], ∅) names.

(** And [key.rest] into a header that is an object: [omit] replaces it
    by a copy without [rest]. *)
Definition simple_omit_paths (h : heap) (object : value) (names : list string)
  : list obj * obj :=
  let own := own_props h object in
  foldl (λ (acc : list obj * obj) name,
           match own !! name with
           | Some _ => (acc.1, delete name acc.2)
           | None =>
               match split_path name with
               | Some (k, rest) =>
                   match acc.2 !! k with
                   | Some (VRef n) =>
                       (acc.1 ++ [delete rest (default ∅ ((h ++ acc.1) !! n))],
                        <[k := VRef (length h + length acc.1)]> acc.2)
                   | _ => acc
                   end
               | None => acc
               end
           end) ([], own) names.

Definition simple_host : Host := {|
  URL_parse := simple_URL_parse;
  formatRequest :=
    copy_fields ["timestamp"; "method"; "url"; "path"; "headers"];
  formatResponse :=
    copy_fields ["timestamp"; "statusCode"; "headers"; "responseTime"];
  toISOString := iso_format;
  Date_parse := iso_parse;
  special_member := simple_special_member;
  pick_paths := simple_pick_paths;
  omit_paths := simple_omit_paths;
|}.

(** A heap with one completed exchange and three errors about it. *)
Definition example_heap : heap :=
  [ {[ "url" := VStr "http://example.com/x"; "method" := VStr "post";
       "headers" := VRef 1; "timestamp" := VStr "2024-01-01T00:00:00.000Z" ]};
    {[ "auth" := VStr "t" ]};
    {[ "method" := VStr "POST"; "path" := VStr "/x"; "headers" := VRef 3 ]};
    {[ "host" := VStr "example.com"; "auth" := VStr "t" ]};
    {[ "content-type" := VStr "text/plain"; "set-cookie" := VStr "s" ]};
    {[ "status" := VNum 404; "headers" := VRef 4; "config" := VRef 0;
       "request" := VRef 2 ]};
    {[ "response" := VRef 5; "config" := VRef 0 ]};
    {[ "config" := VRef 0 ]};
    ∅ ].

Definition example_state : state := State example_heap 1704067200250 [].

Definition example_options : options :=
  Options (VNames ["host"; "auth"]) (VNames ["auth"]) VUndef (VNames ["set-cookie"]).

(** A config whose caller set a [host] header of its own. *)
Definition override_state : state :=
  State [ {[ "url" := VStr "http://example.com/x"; "method" := VStr "get";
             "headers" := VRef 1;
             "timestamp" := VStr "2024-01-01T00:00:00.000Z" ]};
          {[ "host" := VStr "other.test"; "auth" := VStr "t" ]} ]
        1704067200250 [].

(** The options of the response normaliser for the example exchange,
    at a clock that runs 750 ms behind the stamp of its config. *)
Definition skewed_state : state :=
  State (example_heap ++
         [ {[ "axiosResponse" := VRef 5;
              "whitelistResponseHeaders" := VUndef;
              "blacklistResponseHeaders" := VNames ["set-cookie"] ]} ])
        1704067199250 [].

(** An error whose config names a method but no url. *)
Definition no_url_state : state :=
  State [ {[ "method" := VStr "get"; "headers" := VRef 1 ]};
          {[ "auth" := VStr "t" ]};
          {[ "config" := VRef 0 ]} ]
        1704067200250 [].

(** The options of the request normaliser for the example exchange. *)
Definition request_options_state : state :=
  State (example_heap ++
         [ {[ "axiosResponse" := VRef 5;
              "whitelistRequestHeaders" := VNames ["host"; "auth"];
              "blacklistRequestHeaders" := VNames ["auth"] ]} ])
        1704067200250 [].

(** An exchange whose config was never stamped, and the options of the
    response normaliser for it. *)
Definition unstamped_state : state :=
  State [ {[ "url" := VStr "http://example.com/x"; "method" := VStr "get" ]};
          {[ "content-type" := VStr "text/plain" ]};
          {[ "status" := VNum 200; "headers" := VRef 1; "config" := VRef 0 ]};
          {[ "axiosResponse" := VRef 2 ]} ]
        1704067200250 [].

(** The example exchange 1234 ms after its config was stamped anew at
    the clock of [example_state], with the options of the response
    normaliser. *)
Definition later_state : state :=
  State (alter (λ ob : obj, <["timestamp" := VStr "2024-01-01T00:00:00.250Z"]> ob)
           0%nat example_heap ++
         [ {[ "axiosResponse" := VRef 5 ]} ])
        1704067201484 [].

(** ** Vocabulary of the statements *)


(** The contract of a formatter: it returns a newly allocated object
    and leaves every object of the heap as it was. *)
Definition formats_afresh (f : heap → value → ext (value * heap)) : Prop :=
  ∀ h v, ∃ l h',
    f h v = Ret (VRef l, h') ∧ h `prefix_of` h' ∧
    (length h ≤ l < length h')%nat.

(** A formatter that hands field [k] of its argument on to its result. *)
Definition keeps_field (f : heap → value → ext (value * heap)) (k : string)
  : Prop :=
  ∀ h v, ∃ l h',
    f h v = Ret (VRef l, h') ∧ (l < length h')%nat ∧
    prop h' (VRef l) k = prop h v k.

(** A header name lodash takes for a key whatever the object: it is
    free of the path syntax and no special member of any value. *)
Definition ordinary `{Host} (name : string) : Prop :=
  plain name = true ∧ ∀ h v, special_member h v name = false.

(** An allow-list and a deny-list of ordinary names; the allow-list
    counts when it is given. *)
Definition ordinary_lists `{Host} (wl bl : value) : Prop :=
  (truthy wl = true → Forall ordinary (names_of wl)) ∧
  Forall ordinary (names_of bl).

(** The summary line of a request, read off the heap. *)
Definition request_line (h : heap) (request : value) : string :=
  let headers := js_or (prop h request "headers") (prop h request "_headers") in
  let host :=
    if truthy headers then js_or (prop h headers "host") (VStr "")
    else VStr "" in
  let url := js_or (prop h request "url") (prop h request "path") in
  to_string (prop h request "method") +:+ " " +:+
  to_string host +:+ to_string url.

(** A computation that makes no call to the sink, however it ends. *)
Definition silent {A} (m : M A) : Prop :=
  ∀ st, st_log (final (m st)) = st_log st.

(** A computation whose calls to the sink, however it ends, are at most
    one and at level [lv], and exactly one when it returns. *)
Definition emits {A} (lv : level) (m : M A) : Prop :=
  ∀ st, ∃ new,
    st_log (final (m st)) = (st_log st ++ new)%list ∧
    Forall (λ e, e_level e = lv) new ∧
    (length new ≤ 1)%nat ∧
    (is_ok (m st) = true → length new = 1%nat).

(** A computation that, however it ends, leaves every object of the
    heap as it was, and the clock and the sink untouched: all it does
    to the state is allocate. *)
Definition only_allocates {A} (m : M A) : Prop :=
  ∀ st,
    st_heap st `prefix_of` st_heap (final (m st)) ∧
    st_clock (final (m st)) = st_clock st ∧
    st_log (final (m st)) = st_log st.

(** The last steps of both normalisers, on the object [loggable] the
    formatter returned: its headers are filtered by the lists [wl] and
    [bl] and stored back. *)
Definition filter_options (headers wl bl : value) : obj :=
  {[ "headers" := headers;
     "whitelistHeaders" := wl;
     "blacklistHeaders" := bl ]}.

Definition store_filtered_headers `{Host} (loggable wl bl : value)
  : M value :=
  let! headers := get loggable "headers" in
  let! fopts := alloc (filter_options headers wl bl) in
  let! filtered := filterHeaders fopts in
  run! set loggable "headers" filtered in
  ret loggable.

(** The options [logResponse] hands to the two normalisers. *)
Definition request_options (o : options) (axiosResponse : value) : obj :=
  {[ "axiosResponse" := axiosResponse;
     "whitelistRequestHeaders" := whitelistRequestHeaders o;
     "blacklistRequestHeaders" := blacklistRequestHeaders o ]}.

Definition response_options (o : options) (axiosResponse : value) : obj :=
  {[ "axiosResponse" := axiosResponse;
     "whitelistResponseHeaders" := whitelistResponseHeaders o;
     "blacklistResponseHeaders" := blacklistResponseHeaders o ]}.

(** A header map under the lists [wl] and [bl]. *)
Definition visible (Hm : obj) (wl bl : value) : obj :=
  omit_keys (if truthy wl then pick_keys Hm (names_of wl) else Hm) (names_of bl).

Definition is_string (v : value) : bool :=
  match v with VStr _ => true | _ => false end.

(** Header [k] of the request a normaliser returned. *)
Definition header_of (r : result value) (k : string) : option value :=
  match r with
  | Ok request st =>
      own_props (st_heap st) (prop (st_heap st) request "headers") !! k
  | Throw _ _ => None
  end.

(** ** Properties *)

(** *** The monad and the primitives *)

Lemma bind_Ok {A B} (m : M A) (f : A → M B) st a st' :
  m st = Ok a st' → bind m f st = f a st'.
Proof. unfold bind. by intros ->. Qed.

Lemma bind_Throw {A B} (m : M A) (f : A → M B) st e st' :
  m st = Throw e st' → bind m f st = Throw e st'.
Proof. unfold bind. by intros ->. Qed.

Lemma bind_ret {A B} (a : A) (f : A → M B) st : bind (ret a) f st = f a st.
Proof. done. Qed.

Lemma bind_assoc {A B C} (m : M A) (f : A → M B) (g : B → M C) st :
  bind (bind m f) g st = bind m (λ a, bind (f a) g) st.
Proof. unfold bind. by destruct (m st). Qed.

Lemma get_Ok st v k x :
  get_prop (st_heap st) v k = Some x → get v k st = Ok x st.
Proof. unfold get. by intros ->. Qed.

Lemma get_prop_nullish h v k :
  nullish v = true → get_prop h v k = None.
Proof. by destruct v. Qed.

Lemma get_prop_defined h v k :
  nullish v = false → get_prop h v k = Some (prop h v k).
Proof. unfold prop. by destruct v. Qed.

Lemma get_defined st v k :
  nullish v = false → get v k st = Ok (prop (st_heap st) v k) st.
Proof. intros Hv. by apply get_Ok, get_prop_defined. Qed.

Lemma get_nullish st v k :
  nullish v = true → get v k st = Throw TypeError st.
Proof. intros Hv. unfold get. by rewrite get_prop_nullish. Qed.

Lemma truthy_not_nullish v : truthy v = true → nullish v = false.
Proof. by destruct v. Qed.

Lemma nullish_prop_defined h v k :
  nullish (prop h v k) = false → nullish v = false.
Proof. unfold prop. by destruct v. Qed.

(** A read that yields something other than [undefined] reads a live
    object, and still yields it after the heap has grown. *)
Lemma get_prop_grow h h' v k x :
  h `prefix_of` h' → get_prop h v k = Some x → x ≠ VUndef →
  get_prop h' v k = Some x.
Proof.
  intros Hpre Hget Hx. destruct v; try done.
  unfold get_prop in *.
  destruct (h !! l) as [o'|] eqn:Hl.
  - by rewrite (prefix_lookup_Some h h' l o' Hl Hpre).
  - simpl in Hget. rewrite lookup_empty in Hget. simpl in Hget. congruence.
Qed.

Lemma nullish_defined v : nullish v = false → v ≠ VUndef.
Proof. by destruct v. Qed.

(** A value with one property that is neither [null] nor [undefined]
    is a live object: all its properties read the same after the heap
    has grown. *)
Lemma prop_grow_all h h' v k0 k :
  h `prefix_of` h' → nullish (prop h v k0) = false →
  prop h' v k = prop h v k.
Proof.
  intros Hpre Hk0. unfold prop in *. destruct v; try done.
  unfold get_prop in *. destruct (h !! l) as [ob|] eqn:Hl.
  - by rewrite (prefix_lookup_Some h h' l ob Hl Hpre).
  - simpl in Hk0. by rewrite lookup_empty in Hk0.
Qed.

(** *** Header filtering *)

Lemma pick_keys_lookup (o : obj) names k :
  pick_keys o names !! k = if decide (k ∈ names) then o !! k else None.
Proof.
  unfold pick_keys. apply option_eq. intros x.
  rewrite map_lookup_filter_Some. simpl.
  destruct (decide (k ∈ names)); intuition congruence.
Qed.

Lemma omit_keys_lookup (o : obj) names k :
  omit_keys o names !! k = if decide (k ∈ names) then None else o !! k.
Proof.
  unfold omit_keys. apply option_eq. intros x.
  rewrite map_lookup_filter_Some. simpl.
  destruct (decide (k ∈ names)); intuition congruence.
Qed.





Lemma visible_blacklisted Hm wl bl k :
  k ∈ names_of bl → visible Hm wl bl !! k = None.
Proof.
  intros Hk. unfold visible. rewrite omit_keys_lookup. by rewrite decide_True.
Qed.

Lemma visible_not_whitelisted Hm wl bl k :
  truthy wl = true → k ∉ names_of wl → visible Hm wl bl !! k = None.
Proof.
  intros Hwl Hk. unfold visible. rewrite Hwl, omit_keys_lookup.
  destruct (decide (k ∈ names_of bl)); [done|].
  rewrite pick_keys_lookup. by rewrite decide_False.
Qed.


Lemma visible_lookup Hm wl bl k :
  visible Hm wl bl !! k =
  if decide (k ∈ names_of bl) then None
  else if truthy wl
       then (if decide (k ∈ names_of wl) then Hm !! k else None)
       else Hm !! k.
Proof.
  unfold visible. rewrite omit_keys_lookup.
  destruct (decide (k ∈ names_of bl)); [done|].
  destruct (truthy wl); [apply pick_keys_lookup | done].
Qed.

Lemma visible_idem Hm wl bl : visible (visible Hm wl bl) wl bl = visible Hm wl bl.
Proof.
  apply map_eq. intros k. rewrite !visible_lookup.
  destruct (decide (k ∈ names_of bl)); [done|].
  destruct (truthy wl); [|done].
  by destruct (decide (k ∈ names_of wl)).
Qed.

Lemma own_props_fresh h (o : obj) : own_props (h ++ [o]) (VRef (length h)) = o.
Proof. simpl. by rewrite list_lookup_middle. Qed.

Lemma own_props_fresh_first h (o1 o2 : obj) :
  own_props (h ++ [o1; o2]) (VRef (length h)) = o1.
Proof. simpl. by rewrite list_lookup_middle. Qed.

Lemma prop_fresh_second h (o1 o2 : obj) k :
  prop (h ++ [o1; o2]) (VRef (S (length h))) k = default VUndef (o2 !! k).
Proof.
  unfold prop, get_prop. rewrite (lookup_app_r h) by lia.
  by replace (S (length h) - length h)%nat with 1%nat by lia.
Qed.

Lemma own_props_nullish h v : nullish v = true → own_props h v = ∅.
Proof. by destruct v. Qed.

Lemma get_prop_Some_defined h v k x :
  get_prop h v k = Some x → nullish v = false ∧ prop h v k = x.
Proof. unfold prop. intros Hg. rewrite Hg. by destruct v. Qed.

(** The last of several objects allocated at once. *)
Lemma alloc_nested_lookup (cells : list obj) (top : obj) h :
  (h ++ cells ++ [top]) !! (length cells + length h)%nat = Some top.
Proof.
  rewrite app_assoc.
  replace (length cells + length h)%nat with (length (h ++ cells))
    by (rewrite length_app; lia).
  by apply list_lookup_middle.
Qed.

Section Filter.
Context `{Host}.

Lemma ordinary_takes_key h object names :
  Forall ordinary names → forallb (takes_key h object) names = true.
Proof.
  induction 1 as [|name names [Hplain Hspecial] _ IH]; [done|].
  simpl. rewrite IH, andb_true_r. unfold takes_key.
  rewrite Hspecial, Hplain. simpl. by rewrite orb_true_r.
Qed.

(** What [pick] and [omit] do to the state is allocate; on a list of
    ordinary names the one object they allocate is the documented one. *)
Lemma pick_run object paths st :
  ∃ cells top,
    pick object paths st = alloc_nested (cells, top) st ∧
    (nullish object = true → cells = [] ∧ top = ∅) ∧
    (Forall ordinary (names_of paths) →
     cells = [] ∧
     top = pick_keys (own_props (st_heap st) object) (names_of paths)).
Proof.
  unfold pick. destruct (nullish object) eqn:Hnull.
  - exists [], ∅. split; [done|]. split; [done|]. intros _. split; [done|].
    rewrite own_props_nullish by done. unfold pick_keys.
    by rewrite map_filter_empty.
  - destruct (forallb _ _) eqn:Hkeys.
    + eexists [], _. split; [done|]. split; [done | by intros _].
    + destruct (pick_paths _ _ _) as [cells top]. exists cells, top.
      split; [done|]. split; [done|]. intros Hord.
      by rewrite (ordinary_takes_key _ _ _ Hord) in Hkeys.
Qed.

Lemma omit_run object paths st :
  ∃ cells top,
    omit object paths st = alloc_nested (cells, top) st ∧
    (own_props (st_heap st) object = ∅ → cells = [] ∧ top = ∅) ∧
    (Forall ordinary (names_of paths) →
     cells = [] ∧
     top = omit_keys (own_props (st_heap st) object) (names_of paths)).
Proof.
  unfold omit. case_bool_decide as Hown.
  - exists [], ∅. split; [done|]. split; [done|]. intros _. split; [done|].
    rewrite Hown. unfold omit_keys. by rewrite map_filter_empty.
  - destruct (forallb _ _) eqn:Hkeys.
    + eexists [], _. split; [done|]. split; [done | by intros _].
    + destruct (omit_paths _ _ _) as [cells top]. exists cells, top.
      split; [done|]. split; [done|]. intros Hord.
      by rewrite (ordinary_takes_key _ _ _ Hord) in Hkeys.
Qed.

(** [filterHeaders] allocates and returns the last object it made:
    an empty map when there are no headers, the visible part of the
    headers when the two lists hold ordinary names. *)
Lemma filterHeaders_run st opts :
  nullish opts = false →
  let h := st_heap st in
  let hs := prop h opts "headers" in
  let wl := prop h opts "whitelistHeaders" in
  let bl := prop h opts "blacklistHeaders" in
  ∃ cells R,
    filterHeaders opts st = alloc_nested (cells, R) st ∧
    (nullish hs = true → R = ∅) ∧
    (ordinary_lists wl bl → R = visible (own_props h hs) wl bl).
Proof.
  intros Hopts h hs wl bl. unfold filterHeaders.
  rewrite !(bind_Ok _ _ _ _ _ (get_defined st opts _ Hopts)).
  fold h hs wl bl. unfold visible, ordinary_lists.
  destruct (truthy wl).
  - destruct (pick_run hs wl st) as (c1 & t1 & Hpick & Hnull1 & Hord1).
    rewrite (bind_Ok _ _ _ _ _ Hpick). cbn [alloc_nested fst snd].
    fold h.
    match goal with
    | |- context [omit ?v _ ?s] =>
        destruct (omit_run v bl s) as (c2 & t2 & Homit & Hnull2 & Hord2)
    end.
    cbn [st_heap with_heap] in Hnull2, Hord2.
    assert (Hown : own_props (h ++ c1 ++ [t1]) (VRef (length c1 + length h)) = t1).
    { simpl. by rewrite alloc_nested_lookup. }
    rewrite Hown in Hnull2, Hord2.
    exists (c1 ++ [t1] ++ c2), t2. split; [|split].
    + rewrite Homit. unfold alloc_nested.
      cbn [fst snd st_heap with_heap st_clock st_log]. f_equal.
      * f_equal. unfold h. rewrite !length_app. simpl. lia.
      * unfold with_heap, h. cbn [st_clock st_log]. f_equal.
        by rewrite <- !app_assoc.
    + intros Hhs. destruct (Hnull1 Hhs) as [_ ->]. by destruct Hnull2.
    + intros [Hwl Hbl]. destruct (Hord1 (Hwl eq_refl)) as [_ ->].
      by destruct (Hord2 Hbl) as [_ ->].
  - rewrite bind_ret.
    destruct (omit_run hs bl st) as (c2 & t2 & Homit & Hnull2 & Hord2).
    fold h in Hnull2, Hord2.
    exists c2, t2. split; [done|]. split.
    + intros Hhs. apply Hnull2. by apply own_props_nullish.
    + intros [_ Hbl]. by destruct (Hord2 Hbl) as [_ ->].
Qed.


(** X14. Filtering is idempotent on lists of ordinary names: the header
    map [filterHeaders] returns, filtered again under the same two
    lists, comes back with the same entries. *)
Theorem filterHeaders_idempotent
    (st : state) (opts : value) (hl : loc) (Hm : obj) :
  let h := st_heap st in
  get_prop h opts "headers" = Some (VRef hl) →
  h !! hl = Some Hm →
  ordinary_lists (prop h opts "whitelistHeaders")
                 (prop h opts "blacklistHeaders") →
  ∃ r st1 R,
    filterHeaders opts st = Ok (VRef r) st1 ∧
    st_heap st1 !! r = Some R ∧
    ∀ st2 opts2,
      st_heap st1 `prefix_of` st_heap st2 →
      get_prop (st_heap st2) opts2 "headers" = Some (VRef r) →
      prop (st_heap st2) opts2 "whitelistHeaders" =
        prop h opts "whitelistHeaders" →
      prop (st_heap st2) opts2 "blacklistHeaders" =
        prop h opts "blacklistHeaders" →
      ∃ r2 st3,
        filterHeaders opts2 st2 = Ok (VRef r2) st3 ∧
        st_heap st3 !! r2 = Some R.
Proof.
  intros h Hhs Hhl Hord.
  destruct (get_prop_Some_defined _ _ _ _ Hhs) as [Hopts Phs].
  destruct (filterHeaders_run st opts Hopts) as (cells & R & Hrun & _ & HR).
  fold h in HR. specialize (HR Hord).
  rewrite Phs in HR. simpl own_props in HR. rewrite Hhl in HR. simpl in HR.
  assert (Hr : (h ++ cells ++ [R]) !! (length cells + length h)%nat = Some R)
    by apply alloc_nested_lookup.
  eexists _, _, R. split; [exact Hrun|]. cbn [st_heap with_heap fst snd].
  fold h. split; [exact Hr|].
  intros st2 opts2 Hpre Hhs2 Hwl Hbl.
  destruct (get_prop_Some_defined _ _ _ _ Hhs2) as [Hopts2 Phs2].
  destruct (filterHeaders_run st2 opts2 Hopts2)
    as (cells2 & R2 & Hrun2 & _ & HR2).
  rewrite Phs2, Hwl, Hbl in HR2. specialize (HR2 Hord).
  simpl own_props in HR2.
  rewrite (prefix_lookup_Some _ _ _ _ Hr Hpre) in HR2. simpl in HR2.
  eexists _, _. split; [exact Hrun2|]. cbn [st_heap with_heap fst snd].
  rewrite alloc_nested_lookup. f_equal.
  rewrite HR2, HR. apply visible_idem.
Qed.

(** X15. When the options carry no header map -- [headers] is
    [undefined] or [null] --, [filterHeaders] does not fail: it returns
    a new, empty header map, whatever the two lists are. *)
Theorem filterHeaders_without_headers (st : state) (opts : value) :
  nullish opts = false →
  nullish (prop (st_heap st) opts "headers") = true →
  ∃ r st',
    filterHeaders opts st = Ok (VRef r) st' ∧
    st_heap st' !! r = Some ∅.
Proof.
  intros Hopts Hhs.
  destruct (filterHeaders_run st opts Hopts) as (cells & R & Hrun & HR & _).
  rewrite (HR Hhs) in Hrun.
  eexists _, _. split; [exact Hrun|]. cbn [st_heap with_heap fst snd].
  apply alloc_nested_lookup.
Qed.

End Filter.

(** The names of the examples are ordinary to the example instance. *)
Lemma simple_ordinary (names : list string) :
  forallb (λ name, plain name
                   && negb (bool_decide (name ∈ object_members))
                   && negb (String.eqb name "length")) names = true →
  Forall (ordinary (H := simple_host)) names.
Proof.
  induction names as [|name names IH]; [by constructor|].
  simpl. intros Hall. apply andb_prop in Hall as [Hname Hrest].
  apply andb_prop in Hname as [Hname Hlen].
  apply andb_prop in Hname as [Hplain Hmem].
  apply negb_true_iff in Hlen, Hmem.
  constructor; [|by apply IH].
  split; [done|]. intros h v. simpl. unfold simple_special_member.
  rewrite Hmem. by destruct v.
Qed.



(** A deny-list that is missing reaches [omit] as [undefined], which
    lodash takes for the key of that name: a header called [undefined]
    is dropped when no list is given at all. *)
Example filterHeaders_undefined_header :
  ∃ st',
    filterHeaders (H := simple_host) (VRef 1)
      (State [ {[ "undefined" := VStr "x"; "host" := VStr "example.com" ]};
               {[ "headers" := VRef 0 ]} ] 0 []) = Ok (VRef 2) st' ∧
    st_heap st' !! 2%nat = Some {[ "host" := VStr "example.com" ]}.
Proof. eexists. split; vm_compute; reflexivity. Qed.

(** *** The summary line *)

Lemma prop_fresh_empty h k : prop (h ++ [∅]) (VRef (length h)) k = VUndef.
Proof.
  unfold prop, get_prop. rewrite list_lookup_middle by done. simpl.
  by rewrite lookup_empty.
Qed.

Lemma makeRequestLine_run (st : state) (request : value) :
  nullish request = false →
  ∃ st',
    makeRequestLine request st = Ok (request_line (st_heap st) request) st' ∧
    st_log st' = st_log st ∧
    st_heap st `prefix_of` st_heap st'.
Proof.
  intros Hreq. unfold request_line.
  set (h := st_heap st).
  set (headers := js_or (prop h request "headers") (prop h request "_headers")).
  set (host := if truthy headers then js_or (prop h headers "host") (VStr "")
               else VStr "").
  set (url := js_or (prop h request "url") (prop h request "path")).
  unfold makeRequestLine.
  rewrite (bind_Ok _ _ _ _ _ (get_defined st request _ Hreq)). fold h.
  assert (Htail : ∀ st1 hv,
    st_heap st1 = st_heap st ∨ st_heap st1 = (h ++ [∅])%list →
    st_log st1 = st_log st →
    nullish hv = false →
    js_or (prop (st_heap st1) hv "host") (VStr "") = host →
    ∃ st',
      (let! hhost := get hv "host" in
       let host0 := js_or hhost (VStr "") in
       let! u := get request "url" in
       let! url0 := if truthy u then ret u else get request "path" in
       let! method := get request "method" in
       ret (to_string method +:+ " " +:+ to_string host0 +:+ to_string url0))
        st1 =
      Ok (to_string (prop h request "method") +:+ " " +:+
          to_string host +:+ to_string url) st' ∧
      st_log st' = st_log st ∧ h `prefix_of` st_heap st').
  { intros st1 hv Hheap Hlog Hhv Hhost.
    assert (Hsame : ∀ k, prop (st_heap st1) request k = prop h request k).
    { intros k. destruct Hheap as [-> | ->]; [done|].
      unfold prop. destruct request; try done. unfold get_prop.
      destruct (h !! l) as [ob|] eqn:Hl.
      - by rewrite (lookup_app_l_Some _ _ _ _ Hl).
      - simpl in Hreq. apply lookup_ge_None in Hl.
        destruct (decide (l = length h)) as [-> | Hne].
        + rewrite list_lookup_middle by done. simpl.
          by rewrite !lookup_empty.
        + rewrite lookup_ge_None_2; [done|]. rewrite length_app. simpl. lia. }
    exists st1.
    rewrite (bind_Ok _ _ _ _ _ (get_defined st1 hv _ Hhv)). cbn zeta.
    rewrite Hhost.
    rewrite (bind_Ok _ _ _ _ _ (get_defined st1 request _ Hreq)).
    rewrite !Hsame.
    assert (Hurl :
      (if truthy (prop h request "url") then ret (prop h request "url")
       else get request "path") st1 = Ok url st1).
    { unfold url, js_or. destruct (truthy (prop h request "url")); [done|].
      rewrite (get_defined st1 request _ Hreq). by rewrite Hsame. }
    rewrite (bind_Ok _ _ _ _ _ Hurl).
    rewrite (bind_Ok _ _ _ _ _ (get_defined st1 request _ Hreq)).
    rewrite Hsame. unfold ret. split; [done|]. split; [done|].
    destruct Hheap as [-> | ->]; [done | by apply prefix_app_r]. }
  subst headers host. unfold js_or in *.
  destruct (truthy (prop h request "headers")) eqn:Th1; cbv iota.
  - rewrite bind_ret.
    apply Htail; [by left | done | by apply truthy_not_nullish |].
    by rewrite ?Th1.
  - rewrite bind_assoc.
    rewrite (bind_Ok _ _ _ _ _ (get_defined st request "_headers" Hreq)).
    fold h. destruct (truthy (prop h request "_headers")) eqn:Th2; cbv iota.
    + rewrite bind_ret.
      apply Htail; [by left | done | by apply truthy_not_nullish |].
      by rewrite ?Th1, ?Th2.
    + rewrite (bind_Ok _ _ st (VRef (length h)) (with_heap (h ++ [∅]) st))
        by done.
      apply Htail; [by right | done | done |].
      cbn [st_heap with_heap]. by rewrite prop_fresh_empty, ?Th1, ?Th2.
Qed.

(** C10. For a request object, [makeRequestLine] returns exactly
    method, one space, host and url, with nothing after the url: the
    header map is [request.headers], else [request._headers], else an
    empty map; host is its [host] entry, else the empty string; url is
    [request.url], else [request.path].  It logs nothing and changes no
    existing object. *)
Theorem makeRequestLine_format (st : state) (request : value) :
  nullish request = false →
  let h := st_heap st in
  let headers := js_or (prop h request "headers") (prop h request "_headers") in
  let host :=
    if truthy headers then js_or (prop h headers "host") (VStr "")
    else VStr "" in
  let url := js_or (prop h request "url") (prop h request "path") in
  ∃ st',
    makeRequestLine request st =
      Ok (to_string (prop h request "method") +:+ " " +:+
          to_string host +:+ to_string url) st' ∧
    st_log st' = st_log st ∧
    h `prefix_of` st_heap st'.
Proof.
  intros Hreq h headers host url.
  destruct (makeRequestLine_run st request Hreq) as (st' & Hrun & Hlog & Hpre).
  exists st'. split; [|by split].
  rewrite Hrun. by unfold request_line.
Qed.

(** The native request of the example exchange has no [url] but a
    [path]: its line is made of method, host header and path. *)
Lemma makeRequestLine_format_witness :
  ∃ st', makeRequestLine (VRef 2) example_state = Ok "POST example.com/x" st'.
Proof.
  destruct (makeRequestLine_format example_state (VRef 2) eq_refl)
    as (st' & Hrun & _).
  exists st'. exact Hrun.
Defined.

(** *** Building a request from a config *)

Section Config.
Context `{Host}.

Lemma createClientRequestFromConfig_run st config u p m :
  let h := st_heap st in
  get_prop h config "url" = Some (VStr u) →
  URL_parse u = Ret p →
  get_prop h config "method" = Some (VStr m) →
  createClientRequestFromConfig config st =
    Ok (VRef (S (length h)))
       (with_heap
          (h ++ [ own_props h (prop h config "headers")
                    ∪ {[ "host" := url_host p ]};
                  {[ "timestamp" := prop h config "timestamp";
                     "method" := VStr (upper m);
                     "url" := url_path p;
                     "headers" := VRef (length h) ]} ]) st).
Proof.
  intros h Hurl Hparse Hmethod.
  destruct (get_prop_Some_defined _ _ _ _ Hurl) as [Hcfg Purl].
  destruct (get_prop_Some_defined _ _ _ _ Hmethod) as [_ Pmethod].
  unfold createClientRequestFromConfig.
  rewrite !(bind_Ok _ _ _ _ _ (get_defined st config _ Hcfg)).
  fold h. rewrite Purl. unfold call_URL_parse. rewrite Hparse, bind_ret.
  rewrite (bind_Ok _ _ _ _ _ (get_defined st config _ Hcfg)).
  fold h. rewrite Pmethod. unfold toUpperCase. rewrite bind_ret.
  unfold bind, Object_assign_new, alloc. cbn [st_heap with_heap]. fold h.
  rewrite length_app, <- app_assoc. simpl.
  by rewrite Nat.add_1_r.
Qed.

(** C5. The config [{url: "http://example.com/x", method: "post",
    headers: {auth: "t"}, timestamp: "2024-01-01T00:00:00.000Z"}], whose
    url parses to host [example.com] and path [/x], is normalised to
    [{timestamp: "2024-01-01T00:00:00.000Z", method: "POST", url: "/x",
    headers: {host: "example.com", auth: "t"}}]; the config and its
    headers stay as they were and nothing is logged. *)
Theorem createClientRequestFromConfig_example (st : state) (c hl : loc) :
  URL_parse "http://example.com/x" =
    Ret (ParsedUrl (VStr "example.com") (VStr "/x")) →
  st_heap st !! c =
    Some {[ "url" := VStr "http://example.com/x"; "method" := VStr "post";
            "headers" := VRef hl;
            "timestamp" := VStr "2024-01-01T00:00:00.000Z" ]} →
  st_heap st !! hl = Some {[ "auth" := VStr "t" ]} →
  ∃ r hr st',
    createClientRequestFromConfig (VRef c) st = Ok (VRef r) st' ∧
    st_heap st' !! r =
      Some {[ "timestamp" := VStr "2024-01-01T00:00:00.000Z";
              "method" := VStr "POST"; "url" := VStr "/x";
              "headers" := VRef hr ]} ∧
    st_heap st' !! hr =
      Some {[ "host" := VStr "example.com"; "auth" := VStr "t" ]} ∧
    st_heap st `prefix_of` st_heap st' ∧
    st_log st' = st_log st.
Proof.
  intros Hparse Hc Hhl.
  assert (Hget : ∀ k, get_prop (st_heap st) (VRef c) k =
                      Some (default VUndef
                        (({[ "url" := VStr "http://example.com/x";
                             "method" := VStr "post"; "headers" := VRef hl;
                             "timestamp" := VStr "2024-01-01T00:00:00.000Z" ]}
                          : obj) !! k))).
  { intros k. unfold get_prop. by rewrite Hc. }
  pose proof (createClientRequestFromConfig_run st (VRef c) _ _ "post"
                (Hget "url") Hparse (Hget "method")) as Hrun.
  cbv zeta in Hrun. unfold prop in Hrun. rewrite !Hget in Hrun.
  change (default VUndef (Some (default VUndef _)))
    with (VStr "2024-01-01T00:00:00.000Z") in Hrun at 2.
  change (default VUndef (Some (default VUndef _)))
    with (VRef hl) in Hrun.
  unfold own_props in Hrun. rewrite Hhl in Hrun.
  eexists _, _, _. split; [exact Hrun|]. cbn [st_heap with_heap st_log].
  split; [|split; [|split; [by apply prefix_app_r | done]]].
  - rewrite (lookup_app_r _ _ (S (length (st_heap st)))) by lia.
    by replace (S (length (st_heap st)) - length (st_heap st))%nat
      with 1%nat by lia.
  - by rewrite list_lookup_middle.
Qed.

(** C4, as the code has it.  For a config with a string url that
    parses and a string method, the headers of the request always hold
    a [host] entry: the caller's own [host] header when [config.headers]
    has one, the host parsed from [config.url] otherwise.  On every
    other key the headers are those of the config. *)
Theorem createClientRequestFromConfig_host
    (st : state) (config : value) (u m : string) (p : parsed_url) :
  let h := st_heap st in
  let given := own_props h (prop h config "headers") in
  get_prop h config "url" = Some (VStr u) →
  URL_parse u = Ret p →
  get_prop h config "method" = Some (VStr m) →
  is_ok (createClientRequestFromConfig config st) = true ∧
  header_of (createClientRequestFromConfig config st) "host" =
    Some (default (url_host p) (given !! "host")) ∧
  ∀ k, k ≠ "host" →
    header_of (createClientRequestFromConfig config st) k = given !! k.
Proof.
  intros h given Hurl Hparse Hmethod.
  rewrite (createClientRequestFromConfig_run st config u p m
             Hurl Hparse Hmethod).
  fold h given. split; [done|].
  assert (Hhs : ∀ k,
    header_of
      (Ok (VRef (S (length h)))
         (with_heap
            (h ++ [given ∪ {[ "host" := url_host p ]};
                   {[ "timestamp" := prop h config "timestamp";
                      "method" := VStr (upper m);
                      "url" := url_path p;
                      "headers" := VRef (length h) ]}]) st)) k =
    (given ∪ {[ "host" := url_host p ]}) !! k).
  { intros k. unfold header_of. cbn [st_heap with_heap].
    rewrite prop_fresh_second.
    change (default VUndef (_ !! "headers")) with (VRef (length h)).
    by rewrite own_props_fresh_first. }
  split.
  - rewrite Hhs, lookup_union. rewrite lookup_singleton_eq.
    by destruct (given !! "host").
  - intros k Hk. rewrite Hhs, lookup_union.
    rewrite lookup_singleton_ne by done. by destruct (given !! k).
Qed.

End Config.

(** C4 as stated fails: the url names [example.com], the caller's
    headers name [other.test], and the request carries the latter. *)
Lemma createClientRequestFromConfig_host_counterexample :
  simple_URL_parse "http://example.com/x" =
    Ret (ParsedUrl (VStr "example.com") (VStr "/x")) ∧
  header_of
    (createClientRequestFromConfig (H := simple_host) (VRef 0) override_state)
    "host" = Some (VStr "other.test") ∧
  header_of
    (createClientRequestFromConfig (H := simple_host) (VRef 0) override_state)
    "host" ≠ Some (VStr "example.com").
Proof. split; [reflexivity|]. split; [reflexivity|]. vm_compute. congruence. Qed.

(** On the config of the example exchange the caller set no [host]:
    the url's host is used, and [auth] is the caller's. *)
Lemma createClientRequestFromConfig_host_witness :
  header_of
    (createClientRequestFromConfig (H := simple_host) (VRef 0) example_state)
    "host" = Some (VStr "example.com") ∧
  header_of
    (createClientRequestFromConfig (H := simple_host) (VRef 0) example_state)
    "auth" = Some (VStr "t").
Proof.
  destruct (createClientRequestFromConfig_host (H := simple_host)
              example_state (VRef 0) "http://example.com/x" "post"
              (ParsedUrl (VStr "example.com") (VStr "/x"))
              eq_refl eq_refl eq_refl) as (_ & Hhost & Hrest).
  split; [exact Hhost|]. by apply (Hrest "auth").
Defined.

(** The config of the example exchange is the one of C5. *)
Lemma createClientRequestFromConfig_example_witness :
  ∃ r hr st',
    createClientRequestFromConfig (H := simple_host) (VRef 0) example_state =
      Ok (VRef r) st' ∧
    st_heap st' !! r =
      Some {[ "timestamp" := VStr "2024-01-01T00:00:00.000Z";
              "method" := VStr "POST"; "url" := VStr "/x";
              "headers" := VRef hr ]} ∧
    st_heap st' !! hr =
      Some {[ "host" := VStr "example.com"; "auth" := VStr "t" ]}.
Proof.
  destruct (createClientRequestFromConfig_example (H := simple_host)
              example_state 0%nat 1%nat eq_refl eq_refl eq_refl)
    as (r & hr & st' & Hrun & Hr & Hhr & _).
  by exists r, hr, st'.
Defined.

(** *** The error interceptor *)

Section OnError.
Context `{Host}.

Lemma truthy_prop_defined h v k :
  truthy (prop h v k) = true → nullish v = false.
Proof. unfold prop. by destruct v. Qed.

(** A response without an [axiosResponse] property of its own, handed
    to a normaliser as its options, makes the normaliser read [config]
    of [undefined]. *)
Lemma getLoggableRequestFromAxiosResponse_throws st opts :
  nullish opts = false →
  nullish (prop (st_heap st) opts "axiosResponse") = true →
  getLoggableRequestFromAxiosResponse opts st = Throw TypeError st.
Proof.
  intros Hopts Haxr. unfold getLoggableRequestFromAxiosResponse.
  rewrite !(bind_Ok _ _ _ _ _ (get_defined st opts _ Hopts)).
  by rewrite (bind_Throw _ _ _ _ _ (get_nullish st _ "config" Haxr)).
Qed.

Lemma logError_response_throws st error :
  let h := st_heap st in
  truthy (prop h error "response") = true →
  nullish (prop h (prop h error "response") "axiosResponse") = true →
  logError error st = Throw TypeError st.
Proof.
  intros h Hresp Haxr. unfold logError.
  pose proof (truthy_prop_defined _ _ _ Hresp) as Herr.
  rewrite (bind_Ok _ _ _ _ _ (get_defined st error _ Herr)).
  fold h. rewrite Hresp.
  apply bind_Throw.
  rewrite (bind_Ok _ _ _ _ _ (get_defined st error _ Herr)).
  apply getLoggableRequestFromAxiosResponse_throws; [|done].
  by apply truthy_not_nullish.
Qed.

(** C1 at an error that carries a response.  The response is passed to
    the request normaliser in the place of its options; when it has no
    [axiosResponse] property of its own, as the response of an HTTP
    exchange, the handler fails with a [TypeError] and the caller sees
    that in the place of the original error. *)
Theorem logError_response_replaces_error (st : state) (error : value) :
  let h := st_heap st in
  truthy (prop h error "response") = true →
  nullish (prop h (prop h error "response") "axiosResponse") = true →
  settle_promise (logError error st) = Rejected TypeError ∧
  settle_promise (logError error st) ≠ Rejected (Thrown error).
Proof.
  intros h Hresp Haxr.
  rewrite (logError_response_throws st error Hresp Haxr). by split.
Qed.

(** C2 at the same errors: the handler stops before any call to the
    sink, so no [logger.error] is emitted and no state is changed. *)
Theorem logError_response_emits_nothing (st : state) (error : value) :
  let h := st_heap st in
  truthy (prop h error "response") = true →
  nullish (prop h (prop h error "response") "axiosResponse") = true →
  final (logError error st) = st ∧
  emitted st (final (logError error st)) = [].
Proof.
  intros h Hresp Haxr.
  rewrite (logError_response_throws st error Hresp Haxr). simpl.
  split; [done|]. unfold emitted. by rewrite drop_all.
Qed.

Lemma logError_indeterminate st error :
  let h := st_heap st in
  nullish error = false →
  truthy (prop h error "response") = false →
  truthy (prop h error "config") = false →
  logError error st =
    Ok (Promise_reject error)
       (State (h ++ [ {[ "request" := VUndef; "error" := error ]} ])
              (st_clock st)
              (st_log st ++
               [Entry LvError (VRef (length h))
                  "Undefined client request ERROR"])).
Proof.
  intros h Herr Hresp Hcfg. unfold logError.
  rewrite (bind_Ok _ _ _ _ _ (get_defined st error _ Herr)).
  fold h. rewrite Hresp. rewrite bind_assoc.
  rewrite (bind_Ok _ _ _ _ _ (get_defined st error _ Herr)).
  fold h. rewrite Hcfg. rewrite !bind_ret. simpl truthy. cbv iota.
  rewrite bind_ret.
  rewrite (bind_Ok _ _ _ _ _ (get_defined st error _ Herr)).
  fold h. rewrite Hresp. done.
Qed.

(** An error that carries no response but a config with a string url
    that parses and a string method: one call to [logger.error] with
    the line of the request built from the config, and a rejection with
    the error. *)
Lemma logError_config st error u p m :
  let h := st_heap st in
  let config := prop h error "config" in
  truthy (prop h error "response") = false →
  truthy config = true →
  get_prop h config "url" = Some (VStr u) →
  URL_parse u = Ret p →
  get_prop h config "method" = Some (VStr m) →
  ∃ line payload st',
    logError error st = Ok (Promise_reject error) st' ∧
    emitted st st' = [Entry LvError payload (line +:+ " ERROR")] ∧
    h `prefix_of` st_heap st'.
Proof.
  intros h config Hresp Hcfg Hurl Hparse Hmethod.
  assert (Herr : nullish error = false).
  { apply (nullish_prop_defined h error "config").
    by apply truthy_not_nullish. }
  unfold logError.
  rewrite (bind_Ok _ _ _ _ _ (get_defined st error _ Herr)).
  fold h. rewrite Hresp. rewrite bind_assoc.
  rewrite (bind_Ok _ _ _ _ _ (get_defined st error _ Herr)).
  fold h config. rewrite Hcfg. rewrite bind_assoc.
  rewrite (bind_Ok _ _ _ _ _ (get_defined st error _ Herr)).
  fold h config.
  rewrite (bind_Ok _ _ _ _ _
             (createClientRequestFromConfig_run st config u p m
                Hurl Hparse Hmethod)).
  cbn [truthy]. cbv iota.
  match goal with
  | |- context [bind (makeRequestLine ?r) _ ?s] =>
      destruct (makeRequestLine_run s r eq_refl)
        as (st2 & Hline & Hlog & Hpre)
  end.
  rewrite (bind_Ok _ _ _ _ _ Hline).
  cbn [st_heap with_heap] in Hpre. fold h in Hpre.
  assert (Hpre2 : h `prefix_of` st_heap st2).
  { etrans; [|exact Hpre]. by apply prefix_app_r. }
  rewrite (bind_Ok _ _ _ _ _ (get_defined st2 error _ Herr)).
  rewrite (prop_grow_all h (st_heap st2) error "config" "response")
    by (done || by apply truthy_not_nullish).
  rewrite Hresp. unfold bind, alloc, emit, ret.
  cbn [st_heap with_heap st_clock st_log].
  eexists _, _, _. split; [done|]. split.
  - unfold emitted. cbn [st_log]. rewrite Hlog. cbn [st_log with_heap].
    by rewrite drop_app_length.
  - cbn [st_heap]. by apply prefix_app_r.
Qed.

(** C7. For an error object with neither a [response] nor a [config]
    property, the handler makes one call to [logger.error], with the
    message ["Undefined client request ERROR"], and rejects with the
    error. *)
Theorem logError_undefined_request
    (st : state) (e : loc) (ob : obj) :
  st_heap st !! e = Some ob →
  ob !! "response" = None →
  ob !! "config" = None →
  ∃ payload st',
    logError (VRef e) st = Ok (Promise_reject (VRef e)) st' ∧
    emitted st st' =
      [Entry LvError payload "Undefined client request ERROR"].
Proof.
  intros He Hresp Hcfg.
  assert (Hprop : ∀ k, prop (st_heap st) (VRef e) k = default VUndef (ob !! k)).
  { intros k. unfold prop, get_prop. by rewrite He. }
  eexists _, _. split.
  - apply logError_indeterminate; [done | |].
    + by rewrite Hprop, Hresp.
    + by rewrite Hprop, Hcfg.
  - unfold emitted. cbn [st_log]. by rewrite drop_app_length.
Qed.

End OnError.

(** The first error of the examples carries the response of the example
    exchange and its config. *)
Lemma logError_response_replaces_error_witness :
  settle_promise (logError (H := simple_host) (VRef 6) example_state) =
    Rejected TypeError ∧
  settle_promise (logError (H := simple_host) (VRef 6) example_state) ≠
    Rejected (Thrown (VRef 6)).
Proof.
  exact (logError_response_replaces_error (H := simple_host)
           example_state (VRef 6) eq_refl eq_refl).
Defined.

Lemma logError_response_emits_nothing_witness :
  final (logError (H := simple_host) (VRef 6) example_state) = example_state ∧
  emitted example_state
    (final (logError (H := simple_host) (VRef 6) example_state)) = [].
Proof.
  exact (logError_response_emits_nothing (H := simple_host)
           example_state (VRef 6) eq_refl eq_refl).
Defined.

(** The last error of the examples is an empty object. *)
Lemma logError_undefined_request_witness :
  ∃ payload st',
    logError (H := simple_host) (VRef 8) example_state =
      Ok (Promise_reject (VRef 8)) st' ∧
    emitted example_state st' =
      [Entry LvError payload "Undefined client request ERROR"].
Proof.
  exact (logError_undefined_request (H := simple_host)
           example_state 8%nat ∅ eq_refl eq_refl eq_refl).
Defined.

(** *** Which method of the sink is called *)

Lemma silent_ret {A} (a : A) : silent (ret a).
Proof. by intros st. Qed.

Lemma silent_throw {A} e : silent (throw (A := A) e).
Proof. by intros st. Qed.

Lemma silent_bind {A B} (m : M A) (f : A → M B) :
  silent m → (∀ a, silent (f a)) → silent (bind m f).
Proof.
  intros Hm Hf st. unfold bind. specialize (Hm st).
  destruct (m st) as [a st1 | e st1]; simpl in *; [|done].
  by rewrite Hf.
Qed.

Lemma silent_get v k : silent (get v k).
Proof. intros st. unfold get. by destruct (get_prop _ _ _). Qed.

Lemma silent_set v k x : silent (set v k x).
Proof. intros st. by destruct v. Qed.

Lemma silent_alloc o : silent (alloc o).
Proof. by intros st. Qed.

Lemma silent_Object_assign_new target source :
  silent (Object_assign_new target source).
Proof. by intros st. Qed.

Lemma silent_Date_now : silent Date_now.
Proof. by intros st. Qed.

Lemma silent_call_format f v : silent (call_format f v).
Proof.
  intros st. unfold call_format.
  by destruct (f _ _) as [[r h'] | e].
Qed.

Lemma silent_toUpperCase x : silent (toUpperCase x).
Proof. intros st. by destruct x. Qed.

Lemma silent_pick `{Host} object paths :
  silent (pick object paths).
Proof.
  intros st. destruct (pick_run object paths st) as (? & ? & -> & _).
  done.
Qed.

Lemma silent_omit `{Host} object paths :
  silent (omit object paths).
Proof.
  intros st. destruct (omit_run object paths st) as (? & ? & -> & _).
  done.
Qed.

Create HintDb silent.
#[export] Hint Resolve silent_ret silent_throw silent_get silent_set
  silent_alloc silent_Object_assign_new silent_Date_now silent_call_format
  silent_toUpperCase silent_pick silent_omit : silent.

Ltac silent_steps :=
  repeat first
    [ apply silent_bind; [|intro]
    | match goal with
      | |- silent (if ?b then _ else _) => destruct b
      end
    | solve [auto with silent] ].

Lemma silent_filterHeaders `{Host} opts : silent (filterHeaders opts).
Proof. unfold filterHeaders. silent_steps. Qed.

Lemma silent_makeRequestLine request : silent (makeRequestLine request).
Proof. unfold makeRequestLine. silent_steps. Qed.

#[export] Hint Resolve silent_filterHeaders silent_makeRequestLine : silent.

Lemma emits_bind {A B} lv (m : M A) (f : A → M B) :
  silent m → (∀ a, emits lv (f a)) → emits lv (bind m f).
Proof.
  intros Hm Hf st. unfold bind. specialize (Hm st).
  destruct (m st) as [a st1 | e st1]; simpl in *.
  - destruct (Hf a st1) as (new & Hlog & Hlv & Hlen & Hok).
    exists new. by rewrite Hlog, Hm.
  - exists []. rewrite app_nil_r. simpl.
    split; [done|]. split; [done|]. split; [lia | done].
Qed.

Lemma emits_emit_ret {A} lv payload message (a : A) :
  emits lv (run! emit lv payload message in ret a).
Proof.
  intros st. exists [Entry lv payload message].
  split; [done|]. split; [by apply Forall_singleton|]. simpl.
  split; [lia | done].
Qed.

Section Severity.
Context `{Host}.

Lemma silent_call_URL_parse v : silent (call_URL_parse v).
Proof.
  intros st. destruct v; try done. simpl.
  by destruct (URL_parse s).
Qed.

Hint Resolve silent_call_URL_parse : silent.

Lemma silent_getLoggableRequestFromAxiosResponse opts :
  silent (getLoggableRequestFromAxiosResponse opts).
Proof. unfold getLoggableRequestFromAxiosResponse. silent_steps. Qed.

Lemma silent_getLoggableResponseFromAxiosResponse opts :
  silent (getLoggableResponseFromAxiosResponse opts).
Proof. unfold getLoggableResponseFromAxiosResponse. silent_steps. Qed.

Lemma silent_createClientRequestFromConfig config :
  silent (createClientRequestFromConfig config).
Proof. unfold createClientRequestFromConfig. silent_steps. Qed.

Hint Resolve silent_getLoggableRequestFromAxiosResponse
  silent_getLoggableResponseFromAxiosResponse
  silent_createClientRequestFromConfig : silent.

Ltac emits_steps :=
  repeat first
    [ apply emits_emit_ret
    | apply emits_bind; [silent_steps | intro]
    | match goal with
      | |- emits _ (if ?b then _ else _) => destruct b
      end ].

(** Whatever the input and however the handler ends, the calls
    [logResponse] makes to the sink are at most one and at the info
    level, those of [logError] at most one and at the error level; a
    handler that returns has made exactly one.  No invocation calls
    both methods. *)
Lemma sink_severity (o : options) (v : value) :
  emits LvInfo (logResponse o v) ∧ emits LvError (logError v).
Proof.
  split.
  - unfold logResponse. emits_steps.
  - unfold logError. emits_steps.
Qed.

(** C9 at an error that carries a response.  The claim has every
    failure branch emit through the error-level method.  On this
    branch the handler hands the response to the request normaliser in
    the place of its options and ends there, in an exception: no call
    at the error level reaches the sink, nor any other. *)
Theorem logError_response_no_error_call (st : state) (error : value) :
  let h := st_heap st in
  truthy (prop h error "response") = true →
  nullish (prop h (prop h error "response") "axiosResponse") = true →
  is_ok (logError error st) = false ∧
  ¬ ∃ e, e ∈ emitted st (final (logError error st)) ∧ e_level e = LvError.
Proof.
  intros h Hresp Haxr.
  rewrite (logError_response_throws st error Hresp Haxr). simpl.
  split; [done|]. unfold emitted. rewrite drop_all.
  intros (e & He & _). by apply elem_of_nil in He.
Qed.

End Severity.

(** The first error of the examples, with the response of the example
    exchange: a failure with a response, and no [logger.error]. *)
Lemma logError_response_no_error_call_witness :
  is_ok (logError (H := simple_host) (VRef 6) example_state) = false ∧
  ¬ ∃ e,
      e ∈ emitted example_state
            (final (logError (H := simple_host) (VRef 6) example_state)) ∧
      e_level e = LvError.
Proof.
  exact (logError_response_no_error_call (H := simple_host)
           example_state (VRef 6) eq_refl eq_refl).
Defined.

(** *** The normalisers on a live exchange *)

Lemma prefix_alter {A} (f : A → A) (l l' : list A) i :
  l `prefix_of` l' → (length l ≤ i)%nat → l `prefix_of` alter f i l'.
Proof.
  intros [k ->] Hi. rewrite alter_app_r_alt by done. by apply prefix_app_r.
Qed.

Lemma prop_fresh h (ob : obj) k :
  prop (h ++ [ob]) (VRef (length h)) k = default VUndef (ob !! k).
Proof. unfold prop, get_prop. by rewrite list_lookup_middle. Qed.

Lemma prop_grow h h' v k :
  h `prefix_of` h' → nullish (prop h v k) = false →
  prop h' v k = prop h v k.
Proof.
  intros Hpre Hv. unfold prop in *.
  destruct (get_prop h v k) as [x|] eqn:Hget; [|done].
  rewrite (get_prop_grow h h' v k x Hpre Hget); [done|].
  by apply nullish_defined.
Qed.

Lemma prop_alter_other h l k k' x :
  k ≠ k' →
  prop (alter (λ ob : obj, <[k := x]> ob) l h) (VRef l) k' = prop h (VRef l) k'.
Proof.
  intros Hk. unfold prop, get_prop. rewrite list_lookup_alter_eq.
  destruct (h !! l) as [ob|]; simpl; [|done].
  by rewrite lookup_insert_ne.
Qed.

Lemma prop_app_l h more l k :
  (l < length h)%nat → prop (h ++ more) (VRef l) k = prop h (VRef l) k.
Proof. intros Hl. unfold prop, get_prop. by rewrite lookup_app_l. Qed.

Section OnResponse.
Context `{Host}.

(** The request normaliser on options that name an exchange with a
    config: it returns a new object, keeps every object there was, and
    touches neither clock nor sink. *)
Lemma getLoggableRequestFromAxiosResponse_afresh st opts :
  formats_afresh formatRequest →
  let h := st_heap st in
  nullish (prop h (prop h opts "axiosResponse") "config") = false →
  ∃ l st',
    getLoggableRequestFromAxiosResponse opts st = Ok (VRef l) st' ∧
    h `prefix_of` st_heap st' ∧
    (length h ≤ l < length (st_heap st'))%nat ∧
    st_clock st' = st_clock st ∧ st_log st' = st_log st.
Proof.
  intros Hfmt h Hcfg.
  pose proof (nullish_prop_defined _ _ _ Hcfg) as Haxr.
  pose proof (nullish_prop_defined _ _ _ Haxr) as Hopts.
  unfold getLoggableRequestFromAxiosResponse.
  rewrite !(bind_Ok _ _ _ _ _ (get_defined st opts _ Hopts)). fold h.
  rewrite (bind_Ok _ _ _ _ _ (get_defined st _ "config" Haxr)). fold h.
  rewrite (bind_Ok _ _ _ _ _ (get_defined st _ "timestamp" Hcfg)). fold h.
  rewrite (bind_Ok _ _ _ _ _ (get_defined st _ "request" Haxr)). fold h.
  set (native := own_props h (prop h (prop h opts "axiosResponse") "request")
                 ∪ {[ "timestamp" :=
                        prop h (prop h (prop h opts "axiosResponse") "config")
                          "timestamp" ]}).
  rewrite (bind_Ok _ _ st (VRef (length h)) (with_heap (h ++ [native]) st))
    by done.
  destruct (Hfmt (h ++ [native]) (VRef (length h)))
    as (l & h2 & Hcall & Hpre & Hl).
  rewrite length_app in Hl. simpl in Hl.
  rewrite (bind_Ok _ _ _ (VRef l) (with_heap h2 st))
    by (unfold call_format; cbn [st_heap with_heap]; by rewrite Hcall).
  rewrite (bind_Ok _ _ _ _ _ (get_defined (with_heap h2 st) (VRef l) _ eq_refl)).
  cbn [st_heap with_heap].
  set (fopts := ({[ "headers" := prop h2 (VRef l) "headers";
                    "whitelistHeaders" := prop h opts "whitelistRequestHeaders";
                    "blacklistHeaders" := prop h opts "blacklistRequestHeaders" ]}
                 : obj)).
  rewrite (bind_Ok _ _ (with_heap h2 st) (VRef (length h2))
             (with_heap (h2 ++ [fopts]) st)) by done.
  destruct (filterHeaders_run (with_heap (h2 ++ [fopts]) st)
              (VRef (length h2)) eq_refl) as (cells & R & Hfilter & _).
  unfold alloc_nested in Hfilter. cbn [fst snd st_heap with_heap] in Hfilter.
  rewrite (bind_Ok _ _ _ _ _ Hfilter).
  set (h3 := (h2 ++ [fopts]) ++ cells ++ [R]).
  change (with_heap h3 (with_heap (h2 ++ [fopts]) st)) with (with_heap h3 st).
  assert (Hpre3 : h `prefix_of` h3).
  { unfold h3. apply prefix_app_r, prefix_app_r.
    etrans; [|exact Hpre]. by apply prefix_app_r. }
  assert (Hlen3 : (length h2 < length h3)%nat).
  { unfold h3. rewrite !length_app. simpl. lia. }
  unfold bind, set, ret. cbn [st_heap with_heap st_clock st_log].
  eexists _, _. split; [done|]. cbn [st_heap with_heap st_clock st_log].
  split; [apply prefix_alter; [done | lia]|].
  rewrite length_alter. split; [lia | done].
Qed.

(** The response normaliser under the same conditions; the result
    keeps what the formatter made of the native response, its
    [headers] apart. *)
Lemma getLoggableResponseFromAxiosResponse_afresh st opts :
  formats_afresh formatResponse →
  let h := st_heap st in
  nullish (prop h (prop h opts "axiosResponse") "config") = false →
  ∃ l st',
    getLoggableResponseFromAxiosResponse opts st = Ok (VRef l) st' ∧
    h `prefix_of` st_heap st' ∧
    (length h ≤ l < length (st_heap st'))%nat ∧
    st_clock st' = st_clock st ∧ st_log st' = st_log st.
Proof.
  intros Hfmt h Hcfg.
  pose proof (nullish_prop_defined _ _ _ Hcfg) as Haxr.
  pose proof (nullish_prop_defined _ _ _ Haxr) as Hopts.
  unfold getLoggableResponseFromAxiosResponse.
  rewrite !(bind_Ok _ _ _ _ _ (get_defined st opts _ Hopts)). fold h.
  rewrite (bind_Ok _ _ _ _ _ (get_defined st _ "config" Haxr)). fold h.
  rewrite (bind_Ok _ _ _ _ _ (get_defined st _ "timestamp" Hcfg)). fold h.
  rewrite (bind_Ok _ _ st (st_clock st) st) by done.
  rewrite !(bind_Ok _ _ _ _ _ (get_defined st _ _ Haxr)). fold h.
  match goal with
  | |- context [alloc ?ob] => set (native := ob)
  end.
  rewrite (bind_Ok _ _ st (VRef (length h)) (with_heap (h ++ [native]) st))
    by done.
  destruct (Hfmt (h ++ [native]) (VRef (length h)))
    as (l & h2 & Hcall & Hpre & Hl).
  rewrite length_app in Hl. simpl in Hl.
  rewrite (bind_Ok _ _ _ (VRef l) (with_heap h2 st))
    by (unfold call_format; cbn [st_heap with_heap]; by rewrite Hcall).
  rewrite (bind_Ok _ _ _ _ _ (get_defined (with_heap h2 st) (VRef l) _ eq_refl)).
  cbn [st_heap with_heap].
  set (fopts := ({[ "headers" := prop h2 (VRef l) "headers";
                    "whitelistHeaders" := prop h opts "whitelistResponseHeaders";
                    "blacklistHeaders" := prop h opts "blacklistResponseHeaders" ]}
                 : obj)).
  rewrite (bind_Ok _ _ (with_heap h2 st) (VRef (length h2))
             (with_heap (h2 ++ [fopts]) st)) by done.
  destruct (filterHeaders_run (with_heap (h2 ++ [fopts]) st)
              (VRef (length h2)) eq_refl) as (cells & R & Hfilter & _).
  unfold alloc_nested in Hfilter. cbn [fst snd st_heap with_heap] in Hfilter.
  rewrite (bind_Ok _ _ _ _ _ Hfilter).
  set (h3 := (h2 ++ [fopts]) ++ cells ++ [R]).
  change (with_heap h3 (with_heap (h2 ++ [fopts]) st)) with (with_heap h3 st).
  assert (Hpre3 : h `prefix_of` h3).
  { unfold h3. apply prefix_app_r, prefix_app_r.
    etrans; [|exact Hpre]. by apply prefix_app_r. }
  assert (Hlen3 : (length h2 < length h3)%nat).
  { unfold h3. rewrite !length_app. simpl. lia. }
  unfold bind, set, ret. cbn [st_heap with_heap st_clock st_log].
  eexists _, _. split; [done|]. cbn [st_heap with_heap st_clock st_log].
  split; [apply prefix_alter; [done | lia]|].
  rewrite length_alter. split; [lia | done].
Qed.

(** Whatever the formatters do, a call of [logResponse] that returns
    returns its argument. *)
Lemma logResponse_returns_argument (o : options) axiosResponse st v st' :
  logResponse o axiosResponse st = Ok v st' → v = axiosResponse.
Proof.
  unfold logResponse, bind, emit, ret.
  repeat match goal with
         | |- context [match ?m with Ok _ _ => _ | Throw _ _ => _ end] =>
             destruct m; [|done]
         end.
  congruence.
Qed.

(** C6. For an exchange that has a config, and formatters that meet
    their contract, [logResponse] returns the exchange it was given, so
    that the caller sees the chain fulfilled with it, and every object
    that existed before the call -- the exchange, its config, its
    request, its headers -- is as it was: the handler only allocates. *)
Theorem logResponse_pass_through
    (o : options) (st : state) (axiosResponse : value) :
  formats_afresh formatRequest →
  formats_afresh formatResponse →
  nullish (prop (st_heap st) axiosResponse "config") = false →
  settle_value (logResponse o axiosResponse st) = Fulfilled axiosResponse ∧
  ∃ st',
    logResponse o axiosResponse st = Ok axiosResponse st' ∧
    st_heap st `prefix_of` st_heap st'.
Proof.
  intros Hreq Hres Hcfg.
  cut (∃ st', logResponse o axiosResponse st = Ok axiosResponse st' ∧
              st_heap st `prefix_of` st_heap st').
  { intros (st' & Hrun & Hpre). split; [by rewrite Hrun | by exists st']. }
  set (h := st_heap st) in *.
  unfold logResponse.
  match goal with
  | |- context [bind (alloc ?ob) _] => set (ropts := ob)
  end.
  rewrite (bind_Ok _ _ st (VRef (length h)) (with_heap (h ++ [ropts]) st))
    by done.
  destruct (getLoggableRequestFromAxiosResponse_afresh
              (with_heap (h ++ [ropts]) st) (VRef (length h)) Hreq)
    as (l1 & st2 & Hrun1 & Hpre1 & Hl1 & _ & _).
  { cbn [st_heap with_heap]. rewrite prop_fresh.
    change (default VUndef (ropts !! "axiosResponse")) with axiosResponse.
    rewrite (prop_grow h); [done | by apply prefix_app_r | done]. }
  cbn [st_heap with_heap] in Hpre1, Hl1.
  rewrite (bind_Ok _ _ _ _ _ Hrun1).
  match goal with
  | |- context [bind (alloc ?ob) _] => set (sopts := ob)
  end.
  set (h2 := st_heap st2) in *.
  assert (Hpre2 : h `prefix_of` h2).
  { etrans; [|exact Hpre1]. by apply prefix_app_r. }
  rewrite (bind_Ok _ _ st2 (VRef (length h2)) (with_heap (h2 ++ [sopts]) st2))
    by done.
  destruct (getLoggableResponseFromAxiosResponse_afresh
              (with_heap (h2 ++ [sopts]) st2) (VRef (length h2)) Hres)
    as (l2 & st4 & Hrun2 & Hpre3 & Hl2 & _ & _).
  { cbn [st_heap with_heap]. rewrite prop_fresh.
    change (default VUndef (sopts !! "axiosResponse")) with axiosResponse.
    rewrite (prop_grow h); [done | | done].
    etrans; [exact Hpre2 | by apply prefix_app_r]. }
  cbn [st_heap with_heap] in Hpre3, Hl2.
  rewrite (bind_Ok _ _ _ _ _ Hrun2).
  destruct (makeRequestLine_run st4 (VRef l1) eq_refl)
    as (st5 & Hrun3 & _ & Hpre4).
  rewrite (bind_Ok _ _ _ _ _ Hrun3).
  unfold bind at 1. unfold alloc at 1.
  rewrite (bind_Ok _ _ _ _ _ (get_defined _ (VRef l2) "statusCode" eq_refl)).
  unfold bind, emit, ret. eexists. split; [done|].
  cbn [st_heap with_heap]. apply prefix_app_r.
  etrans; [exact Hpre2|]. etrans; [|exact Hpre4]. etrans; [|exact Hpre3].
  by apply prefix_app_r.
Qed.

(** C8. When the timestamp stamped on the exchange's config denotes
    the instant [t], and the formatter hands [responseTime] on, the
    response the normaliser returns has [responseTime] equal to the
    clock reading taken during the call minus [t], an integer of either
    sign: nothing clamps it. *)
Theorem responseTime_raw_difference (st : state) (opts : value) (t : Z) :
  keeps_field formatResponse "responseTime" →
  let h := st_heap st in
  let config := prop h (prop h opts "axiosResponse") "config" in
  Date_getTime (prop h config "timestamp") = Some t →
  ∃ l st',
    getLoggableResponseFromAxiosResponse opts st = Ok (VRef l) st' ∧
    prop (st_heap st') (VRef l) "responseTime" = VNum (st_clock st - t).
Proof.
  intros Hfmt h config Hts.
  assert (Hcfg : nullish config = false).
  { destruct config eqn:Ec; try done; unfold prop in Hts; simpl in Hts;
      done. }
  pose proof (nullish_prop_defined _ _ _ Hcfg) as Haxr.
  pose proof (nullish_prop_defined _ _ _ Haxr) as Hopts.
  unfold getLoggableResponseFromAxiosResponse.
  rewrite !(bind_Ok _ _ _ _ _ (get_defined st opts _ Hopts)). fold h.
  rewrite (bind_Ok _ _ _ _ _ (get_defined st _ "config" Haxr)). fold h config.
  rewrite (bind_Ok _ _ _ _ _ (get_defined st _ "timestamp" Hcfg)). fold h.
  rewrite (bind_Ok _ _ st (st_clock st) st) by done.
  rewrite !(bind_Ok _ _ _ _ _ (get_defined st _ _ Haxr)). fold h.
  match goal with
  | |- context [alloc ?ob] => set (native := ob)
  end.
  rewrite (bind_Ok _ _ st (VRef (length h)) (with_heap (h ++ [native]) st))
    by done.
  destruct (Hfmt (h ++ [native]) (VRef (length h)))
    as (l & h2 & Hcall & Hl & Hkeep).
  rewrite prop_fresh in Hkeep.
  change (default VUndef (native !! "responseTime"))
    with (elapsed (st_clock st) (Date_getTime (prop h config "timestamp")))
    in Hkeep.
  rewrite Hts in Hkeep. simpl in Hkeep.
  rewrite (bind_Ok _ _ _ (VRef l) (with_heap h2 st))
    by (unfold call_format; cbn [st_heap with_heap]; by rewrite Hcall).
  rewrite (bind_Ok _ _ _ _ _ (get_defined (with_heap h2 st) (VRef l) _ eq_refl)).
  cbn [st_heap with_heap].
  match goal with
  | |- context [bind (alloc ?ob) _] => set (fopts := ob)
  end.
  rewrite (bind_Ok _ _ (with_heap h2 st) (VRef (length h2))
             (with_heap (h2 ++ [fopts]) st)) by done.
  destruct (filterHeaders_run (with_heap (h2 ++ [fopts]) st)
              (VRef (length h2)) eq_refl) as (cells & R & Hfilter & _).
  unfold alloc_nested in Hfilter. cbn [fst snd st_heap with_heap] in Hfilter.
  rewrite (bind_Ok _ _ _ _ _ Hfilter).
  unfold bind, set, ret. cbn [st_heap with_heap].
  eexists _, _. split; [done|]. cbn [st_heap with_heap].
  rewrite prop_alter_other by done.
  rewrite <- app_assoc. by rewrite prop_app_l.
Qed.

End OnResponse.

Lemma copy_fields_lookup fields h v k :
  default VUndef
    ((list_to_map ((λ k, (k, prop h v k)) <$> fields) : obj) !! k) =
  if decide (k ∈ fields) then prop h v k else VUndef.
Proof.
  induction fields as [|f fields IH].
  - simpl. rewrite lookup_empty.
    destruct (decide (k ∈ [])) as [Hin | _]; [|done].
    by apply elem_of_nil in Hin.
  - rewrite fmap_cons, list_to_map_cons. cbn [fst snd].
    destruct (decide (f = k)) as [-> | Hne].
    + rewrite lookup_insert_eq. simpl.
      destruct (decide (k ∈ k :: fields)) as [_ | Hout]; [done|].
      destruct Hout. apply elem_of_cons. by left.
    + rewrite lookup_insert_ne by done. rewrite IH.
      destruct (decide (k ∈ fields)) as [Hin | Hout];
        destruct (decide (k ∈ f :: fields)) as [Hin' | Hout']; try done.
      * destruct Hout'. apply elem_of_cons. by right.
      * apply elem_of_cons in Hin'. destruct Hin'; congruence.
Qed.

Lemma copy_fields_afresh fields : formats_afresh (copy_fields fields).
Proof.
  intros h v. eexists _, _. split; [done|].
  split; [by apply prefix_app_r|]. rewrite length_app. simpl. lia.
Qed.

Lemma copy_fields_keeps fields k :
  k ∈ fields → keeps_field (copy_fields fields) k.
Proof.
  intros Hk h v. eexists _, _. split; [done|].
  split; [rewrite length_app; simpl; lia|].
  rewrite prop_fresh, copy_fields_lookup. by rewrite decide_True.
Qed.

Lemma simple_host_keeps_responseTime :
  keeps_field (formatResponse (Host := simple_host)) "responseTime".
Proof. apply copy_fields_keeps. set_solver. Qed.

(** The example exchange passes through [logResponse]. *)
Lemma logResponse_pass_through_witness :
  settle_value
    (logResponse (H := simple_host) example_options (VRef 5) example_state) =
    Fulfilled (VRef 5) ∧
  ∃ st',
    logResponse (H := simple_host) example_options (VRef 5) example_state =
      Ok (VRef 5) st' ∧
    st_heap example_state `prefix_of` st_heap st'.
Proof.
  exact (logResponse_pass_through (H := simple_host)
           example_options example_state (VRef 5)
           (copy_fields_afresh _) (copy_fields_afresh _) eq_refl).
Defined.

(** With the clock 750 ms behind the stamp, the response time is -750. *)
Lemma responseTime_raw_difference_witness :
  ∃ l st',
    getLoggableResponseFromAxiosResponse (H := simple_host) (VRef 9)
      skewed_state = Ok (VRef l) st' ∧
    prop (st_heap st') (VRef l) "responseTime" = VNum (-750).
Proof.
  exact (responseTime_raw_difference (H := simple_host)
           skewed_state (VRef 9) 1704067200000
           simple_host_keeps_responseTime eq_refl).
Defined.

(** *** The handlers on the examples *)

Example logResponse_example :
  e_message <$>
    st_log (final (logResponse (H := simple_host) example_options (VRef 5)
                     example_state)) =
  ["POST example.com/x 404"].
Proof. vm_compute. reflexivity. Qed.

Example logError_config_example :
  (λ e, (e_level e, e_message e)) <$>
    st_log (final (logError (H := simple_host) (VRef 7) example_state)) =
  [(LvError, "POST example.com/x ERROR")].
Proof. vm_compute. reflexivity. Qed.

Example logError_response_example :
  logError (H := simple_host) (VRef 6) example_state =
  Throw TypeError example_state.
Proof. vm_compute. reflexivity. Qed.

(** *** What only allocates *)

Lemma only_allocates_ret {A} (a : A) : only_allocates (ret a).
Proof. by intros st. Qed.

Lemma only_allocates_throw {A} e : only_allocates (throw (A := A) e).
Proof. by intros st. Qed.

Lemma only_allocates_bind {A B} (m : M A) (f : A → M B) :
  only_allocates m → (∀ a, only_allocates (f a)) → only_allocates (bind m f).
Proof.
  intros Hm Hf st. unfold bind. specialize (Hm st).
  destruct (m st) as [a st1 | e st1]; simpl in *; [|done].
  destruct Hm as (Hpre & Hclock & Hlog).
  destruct (Hf a st1) as (Hpre' & Hclock' & Hlog').
  split; [by etrans | split; congruence].
Qed.

Lemma only_allocates_get v k : only_allocates (get v k).
Proof. intros st. unfold get. by destruct (get_prop _ _ _). Qed.

Lemma only_allocates_alloc ob : only_allocates (alloc ob).
Proof. intros st. simpl. split; [by apply prefix_app_r | done]. Qed.

Lemma only_allocates_Object_assign_new target source :
  only_allocates (Object_assign_new target source).
Proof. intros st. simpl. split; [by apply prefix_app_r | done]. Qed.

Lemma only_allocates_Date_now : only_allocates Date_now.
Proof. by intros st. Qed.

Lemma only_allocates_toUpperCase x : only_allocates (toUpperCase x).
Proof. intros st. by destruct x. Qed.

Lemma only_allocates_pick `{Host} object paths :
  only_allocates (pick object paths).
Proof.
  intros st. destruct (pick_run object paths st) as (? & ? & -> & _).
  simpl. split; [by apply prefix_app_r | done].
Qed.

Lemma only_allocates_omit `{Host} object paths :
  only_allocates (omit object paths).
Proof.
  intros st. destruct (omit_run object paths st) as (? & ? & -> & _).
  simpl. split; [by apply prefix_app_r | done].
Qed.

Lemma only_allocates_run {A} (m : M A) st :
  only_allocates m →
  ∃ st1,
    st_heap st `prefix_of` st_heap st1 ∧ st_clock st1 = st_clock st ∧
    st_log st1 = st_log st ∧
    ((∃ e, m st = Throw e st1) ∨ (∃ a, m st = Ok a st1)).
Proof.
  intros Hm. destruct (Hm st) as (Hpre & Hclock & Hlog).
  destruct (m st) as [a st1 | e st1]; simpl in *; exists st1; eauto 10.
Qed.

Create HintDb allocates.
#[export] Hint Resolve only_allocates_ret only_allocates_throw
  only_allocates_get only_allocates_alloc only_allocates_Object_assign_new
  only_allocates_Date_now only_allocates_toUpperCase
  only_allocates_pick only_allocates_omit : allocates.

Ltac allocates_steps :=
  repeat first
    [ apply only_allocates_bind; [|intro]
    | match goal with
      | |- only_allocates (if ?b then _ else _) => destruct b
      end
    | solve [auto with allocates] ].

Section Allocation.
Context `{Host}.

Lemma only_allocates_call_URL_parse v : only_allocates (call_URL_parse v).
Proof.
  intros st. destruct v; try done. simpl.
  by destruct (URL_parse s).
Qed.

Hint Resolve only_allocates_call_URL_parse : allocates.

Lemma only_allocates_filterHeaders opts : only_allocates (filterHeaders opts).
Proof. unfold filterHeaders. allocates_steps. Qed.

Lemma only_allocates_makeRequestLine request :
  only_allocates (makeRequestLine request).
Proof. unfold makeRequestLine. allocates_steps. Qed.

Lemma only_allocates_createClientRequestFromConfig config :
  only_allocates (createClientRequestFromConfig config).
Proof. unfold createClientRequestFromConfig. allocates_steps. Qed.

(** X1. Whatever they are given and however they end -- a result or an
    exception -- [filterHeaders], [makeRequestLine] and
    [createClientRequestFromConfig] change no object that exists and
    call no logger: the header map, the request and the config they are
    given come back as they were. *)
Theorem helpers_only_allocate (opts request config : value) :
  only_allocates (filterHeaders opts) ∧
  only_allocates (makeRequestLine request) ∧
  only_allocates (createClientRequestFromConfig config).
Proof.
  split; [|split].
  - apply only_allocates_filterHeaders.
  - apply only_allocates_makeRequestLine.
  - apply only_allocates_createClientRequestFromConfig.
Qed.

End Allocation.

(** *** The error interceptor without a response *)

Section ErrorWithoutResponse.
Context `{Host}.

Local Hint Resolve only_allocates_call_URL_parse
  only_allocates_createClientRequestFromConfig
  only_allocates_makeRequestLine : allocates.

Lemma prop_live h e (ob : obj) k :
  h !! e = Some ob → prop h (VRef e) k = default VUndef (ob !! k).
Proof. intros He. unfold prop, get_prop. by rewrite He. Qed.

(** X2. For an error object whose [response] is missing or falsy,
    [logError] changes no object that exists -- neither the error nor
    its config nor the config's headers -- whether it ends in the
    rejection or, on a config it cannot normalise, in an exception. *)
Theorem logError_without_response_frame (st : state) (e : loc) (ob : obj) :
  st_heap st !! e = Some ob →
  truthy (default VUndef (ob !! "response")) = false →
  st_heap st `prefix_of` st_heap (final (logError (VRef e) st)) ∧
  st_clock (final (logError (VRef e) st)) = st_clock st.
Proof.
  intros He Hresp. unfold logError.
  rewrite (bind_Ok _ _ _ _ _ (get_defined st (VRef e) _ eq_refl)).
  rewrite (prop_live _ _ _ _ He), Hresp.
  match goal with
  | |- context [bind ?m _ st] =>
      destruct (only_allocates_run m st) as (st1 & Hpre1 & Hck1 & _ & Hrun1);
        [allocates_steps|]
  end.
  destruct Hrun1 as [[ex Hrun1] | [request Hrun1]].
  { rewrite (bind_Throw _ _ _ _ _ Hrun1). by simpl. }
  rewrite (bind_Ok _ _ _ _ _ Hrun1).
  match goal with
  | |- context [bind ?m _ st1] =>
      destruct (only_allocates_run m st1) as (st2 & Hpre2 & Hck2 & _ & Hrun2);
        [allocates_steps|]
  end.
  destruct Hrun2 as [[ex Hrun2] | [line Hrun2]].
  { rewrite (bind_Throw _ _ _ _ _ Hrun2). simpl.
    split; [by etrans | congruence]. }
  rewrite (bind_Ok _ _ _ _ _ Hrun2).
  assert (He2 : st_heap st2 !! e = Some ob).
  { apply (prefix_lookup_Some (st_heap st) _ e ob He). by etrans. }
  rewrite (bind_Ok _ _ _ _ _ (get_defined st2 (VRef e) _ eq_refl)).
  rewrite (prop_live _ _ _ _ He2), Hresp.
  unfold bind, alloc, emit, ret. simpl.
  split; [|congruence].
  apply prefix_app_r. by etrans.
Qed.

End ErrorWithoutResponse.

(** The second error of the examples carries only a config. *)
Lemma logError_without_response_frame_witness :
  st_heap example_state `prefix_of`
    st_heap (final (logError (H := simple_host) (VRef 7) example_state)) ∧
  st_clock (final (logError (H := simple_host) (VRef 7) example_state)) =
    st_clock example_state.
Proof.
  exact (logError_without_response_frame (H := simple_host)
           example_state 7%nat {[ "config" := VRef 0 ]} eq_refl eq_refl).
Defined.

(** *** The error interceptor on a config *)

Lemma prop_fresh_first h (o1 o2 : obj) k :
  prop (h ++ [o1; o2]) (VRef (length h)) k = default VUndef (o1 !! k).
Proof. unfold prop, get_prop. by rewrite list_lookup_middle. Qed.

Section ErrorWithConfig.
Context `{Host}.

(** X3. For an error object without a response whose config has a
    string url that parses and a string method, [logError] makes one
    call to [logger.error] and rejects with the error.  The message is
    the upper-cased method, a space, the host -- the config's own
    [host] header, else the url's host, else nothing --, the path of
    the url, and [" ERROR"].  The payload holds the error and the
    request built from the config, whose headers are all the headers of
    the config over the synthesized [host]: no header policy is applied
    on this path. *)
Theorem logError_config_entry
    (st : state) (e : loc) (ob : obj) (u m : string) (p : parsed_url) :
  let h := st_heap st in
  let config := default VUndef (ob !! "config") in
  let given := own_props h (prop h config "headers") in
  let host := js_or (default (url_host p) (given !! "host")) (VStr "") in
  h !! e = Some ob →
  truthy (default VUndef (ob !! "response")) = false →
  get_prop h config "url" = Some (VStr u) →
  URL_parse u = Ret p →
  get_prop h config "method" = Some (VStr m) →
  ∃ payload request headers st',
    logError (VRef e) st = Ok (Promise_reject (VRef e)) st' ∧
    emitted st st' =
      [Entry LvError (VRef payload)
         ((upper m +:+ " " +:+ to_string host +:+
           to_string (js_or (url_path p) VUndef)) +:+ " ERROR")] ∧
    st_heap st' !! payload =
      Some {[ "request" := VRef request; "error" := VRef e ]} ∧
    prop (st_heap st') (VRef request) "headers" = VRef headers ∧
    st_heap st' !! headers = Some (given ∪ {[ "host" := url_host p ]}).
Proof.
  intros h config given host He Hresp Hurl Hparse Hmethod.
  assert (Hcfg : truthy config = true).
  { destruct (get_prop_Some_defined _ _ _ _ Hurl) as [Hn _].
    destruct config; try done. }
  unfold logError.
  rewrite (bind_Ok _ _ _ _ _ (get_defined st (VRef e) _ eq_refl)).
  rewrite (prop_live _ _ _ _ He), Hresp. rewrite bind_assoc.
  rewrite (bind_Ok _ _ _ _ _ (get_defined st (VRef e) _ eq_refl)).
  rewrite (prop_live _ _ _ _ He). fold config. rewrite Hcfg.
  rewrite bind_assoc.
  rewrite (bind_Ok _ _ _ _ _ (get_defined st (VRef e) _ eq_refl)).
  rewrite (prop_live _ _ _ _ He). fold config.
  rewrite (bind_Ok _ _ _ _ _
             (createClientRequestFromConfig_run st config u p m
                Hurl Hparse Hmethod)).
  fold h given. cbn [truthy]. cbv iota.
  set (merged := given ∪ {[ "host" := url_host p ]}).
  set (reqobj := ({[ "timestamp" := prop h config "timestamp";
                     "method" := VStr (upper m);
                     "url" := url_path p;
                     "headers" := VRef (length h) ]} : obj)).
  set (st1 := with_heap (h ++ [merged; reqobj]) st).
  destruct (makeRequestLine_run st1 (VRef (S (length h))) eq_refl)
    as (st2 & Hline & Hlog & Hpre).
  assert (Hval : request_line (st_heap st1) (VRef (S (length h))) =
                 upper m +:+ " " +:+ to_string host +:+
                 to_string (js_or (url_path p) VUndef)).
  { unfold request_line, st1. cbn [st_heap with_heap].
    rewrite !prop_fresh_second.
    change (default VUndef (reqobj !! "headers")) with (VRef (length h)).
    change (default VUndef (reqobj !! "_headers")) with VUndef.
    change (default VUndef (reqobj !! "url")) with (url_path p).
    change (default VUndef (reqobj !! "path")) with VUndef.
    change (default VUndef (reqobj !! "method")) with (VStr (upper m)).
    cbn [js_or truthy to_string]. rewrite prop_fresh_first.
    unfold merged. rewrite lookup_union, lookup_singleton_eq.
    unfold host. by destruct (given !! "host"). }
  rewrite Hval in Hline. rewrite (bind_Ok _ _ _ _ _ Hline).
  assert (Hpre0 : h `prefix_of` st_heap st2).
  { etrans; [|exact Hpre]. by apply prefix_app_r. }
  assert (He2 : st_heap st2 !! e = Some ob)
    by exact (prefix_lookup_Some h _ e ob He Hpre0).
  rewrite (bind_Ok _ _ _ _ _ (get_defined st2 (VRef e) _ eq_refl)).
  rewrite (prop_live _ _ _ _ He2), Hresp.
  unfold bind, alloc, emit, ret. cbn [st_heap with_heap st_clock st_log].
  exists (length (st_heap st2)), (S (length h)), (length h). eexists.
  split; [done|]. cbn [st_heap st_log].
  assert (Hreq2 : st_heap st2 !! S (length h) = Some reqobj).
  { apply (prefix_lookup_Some (st_heap st1) _ _ _); [|exact Hpre].
    unfold st1. cbn [st_heap with_heap].
    rewrite (lookup_app_r h) by lia.
    by replace (S (length h) - length h)%nat with 1%nat by lia. }
  assert (Hhs2 : st_heap st2 !! length h = Some merged).
  { apply (prefix_lookup_Some (st_heap st1) _ _ _); [|exact Hpre].
    unfold st1. cbn [st_heap with_heap]. by rewrite list_lookup_middle. }
  split; [|split; [|split]].
  - unfold emitted. rewrite Hlog. unfold st1. cbn [st_log with_heap].
    by rewrite drop_app_length.
  - by rewrite list_lookup_middle.
  - unfold prop, get_prop. by rewrite (lookup_app_l_Some _ _ _ _ Hreq2).
  - by rewrite (lookup_app_l_Some _ _ _ _ Hhs2).
Qed.

(** X4. For an error object without a response whose config has no
    string url, or has one that parses but no string method, [logError]
    ends in a [TypeError]: nothing is logged, no state is changed, and
    the caller receives the [TypeError] in the place of the error. *)
Theorem logError_config_unusable
    (st : state) (e : loc) (ob : obj) :
  let h := st_heap st in
  let config := default VUndef (ob !! "config") in
  h !! e = Some ob →
  truthy (default VUndef (ob !! "response")) = false →
  truthy config = true →
  is_string (prop h config "url") = false ∨
  (∃ u p, prop h config "url" = VStr u ∧ URL_parse u = Ret p ∧
          is_string (prop h config "method") = false) →
  logError (VRef e) st = Throw TypeError st ∧
  settle_promise (logError (VRef e) st) ≠ Rejected (Thrown (VRef e)).
Proof.
  intros h config He Hresp Hcfg Hbad.
  cut (logError (VRef e) st = Throw TypeError st).
  { intros ->. by split. }
  pose proof (truthy_not_nullish _ Hcfg) as Hn.
  unfold logError.
  rewrite (bind_Ok _ _ _ _ _ (get_defined st (VRef e) _ eq_refl)).
  rewrite (prop_live _ _ _ _ He), Hresp. rewrite bind_assoc.
  rewrite (bind_Ok _ _ _ _ _ (get_defined st (VRef e) _ eq_refl)).
  rewrite (prop_live _ _ _ _ He). fold config. rewrite Hcfg.
  rewrite bind_assoc.
  rewrite (bind_Ok _ _ _ _ _ (get_defined st (VRef e) _ eq_refl)).
  rewrite (prop_live _ _ _ _ He). fold config.
  apply bind_Throw. unfold createClientRequestFromConfig.
  rewrite !(bind_Ok _ _ _ _ _ (get_defined st config _ Hn)). fold h.
  destruct Hbad as [Hurl | (u & p & Hurl & Hparse & Hmethod)].
  - apply bind_Throw. by destruct (prop h config "url").
  - rewrite Hurl. unfold call_URL_parse. rewrite Hparse, bind_ret.
    rewrite (bind_Ok _ _ _ _ _ (get_defined st config _ Hn)). fold h.
    apply bind_Throw. by destruct (prop h config "method").
Qed.

End ErrorWithConfig.

(** The second error of the examples: its line is made from the config. *)
Lemma logError_config_entry_witness :
  ∃ payload request headers st',
    logError (H := simple_host) (VRef 7) example_state =
      Ok (Promise_reject (VRef 7)) st' ∧
    emitted example_state st' =
      [Entry LvError (VRef payload) "POST example.com/x ERROR"] ∧
    st_heap st' !! payload =
      Some {[ "request" := VRef request; "error" := VRef 7 ]} ∧
    prop (st_heap st') (VRef request) "headers" = VRef headers ∧
    st_heap st' !! headers =
      Some {[ "host" := VStr "example.com"; "auth" := VStr "t" ]}.
Proof.
  exact (logError_config_entry (H := simple_host) example_state 7%nat
           {[ "config" := VRef 0 ]} "http://example.com/x" "post"
           (ParsedUrl (VStr "example.com") (VStr "/x"))
           eq_refl eq_refl eq_refl eq_refl eq_refl).
Defined.

(** A config without a url: the handler fails on [URL.parse]. *)
Lemma logError_config_unusable_witness :
  logError (H := simple_host) (VRef 2) no_url_state =
    Throw TypeError no_url_state ∧
  settle_promise (logError (H := simple_host) (VRef 2) no_url_state) ≠
    Rejected (Thrown (VRef 2)).
Proof.
  exact (logError_config_unusable (H := simple_host) no_url_state 2%nat
           {[ "config" := VRef 0 ]} eq_refl eq_refl eq_refl
           (or_introl eq_refl)).
Defined.

(** *** Filtering and storing the headers *)

Lemma store_filtered_headers_run `{Host} st l (ob : obj) wl bl :
  st_heap st !! l = Some ob →
  let h := st_heap st in
  let hd := default VUndef (ob !! "headers") in
  ∃ r R st',
    store_filtered_headers (VRef l) wl bl st = Ok (VRef l) st' ∧
    st_heap st' !! l = Some (<["headers" := VRef r]> ob) ∧
    st_heap st' !! r = Some R ∧
    (ordinary_lists wl bl →
     R = visible (own_props (h ++ [filter_options hd wl bl]) hd) wl bl) ∧
    (length h < r)%nat ∧
    (∀ i x, i ≠ l → h !! i = Some x → st_heap st' !! i = Some x) ∧
    st_clock st' = st_clock st ∧ st_log st' = st_log st.
Proof.
  intros Hl h hd. unfold store_filtered_headers.
  rewrite (bind_Ok _ _ _ _ _ (get_defined st (VRef l) _ eq_refl)).
  rewrite (prop_live _ _ _ _ Hl). fold hd. fold h in Hl.
  set (fopts := filter_options hd wl bl).
  rewrite (bind_Ok _ _ st (VRef (length h)) (with_heap (h ++ [fopts]) st))
    by done.
  destruct (filterHeaders_run (with_heap (h ++ [fopts]) st)
              (VRef (length h)) eq_refl) as (cells & R & Hfilter & _ & HR).
  cbn [st_heap with_heap] in HR. rewrite !prop_fresh in HR.
  change (default VUndef (fopts !! "headers")) with hd in HR.
  change (default VUndef (fopts !! "whitelistHeaders")) with wl in HR.
  change (default VUndef (fopts !! "blacklistHeaders")) with bl in HR.
  unfold alloc_nested in Hfilter. cbn [fst snd st_heap with_heap] in Hfilter.
  rewrite (bind_Ok _ _ _ _ _ Hfilter).
  set (r := (length cells + length (h ++ [fopts]))%nat).
  assert (Hlt : (l < length h)%nat) by (by apply lookup_lt_Some in Hl).
  assert (Hr : (length h < r)%nat).
  { unfold r. rewrite length_app. simpl. lia. }
  unfold bind, set, ret. cbn [st_heap with_heap st_clock st_log].
  exists r, R. eexists. split; [done|]. cbn [st_heap with_heap st_clock st_log].
  split; [|split; [|split; [done | split; [done | split; [|done]]]]].
  - rewrite list_lookup_alter_eq.
    rewrite <- (app_assoc h), (lookup_app_l h) by done. by rewrite Hl.
  - rewrite list_lookup_alter_ne by lia. apply alloc_nested_lookup.
  - intros i x Hi Hx. rewrite list_lookup_alter_ne by done.
    rewrite <- (app_assoc h). by apply lookup_app_l_Some.
Qed.

Lemma own_props_at h l (ob : obj) :
  h !! l = Some ob → own_props h (VRef l) = ob.
Proof. intros Hl. simpl. by rewrite Hl. Qed.

Lemma own_props_live h more l (ob : obj) :
  h !! l = Some ob → own_props (h ++ more) (VRef l) = ob.
Proof. intros Hl. simpl. by rewrite (lookup_app_l_Some _ _ _ _ Hl). Qed.

(** *** What the normalisers return *)

Section Normalised.
Context `{Host}.

Lemma getLoggableResponseFromAxiosResponse_run st opts :
  formats_afresh formatResponse →
  let h := st_heap st in
  let axr := prop h opts "axiosResponse" in
  let config := prop h axr "config" in
  let native :=
    pseudoNativeResponse (st_clock st) (prop h config "timestamp")
      (prop h axr "status") (prop h axr "headers") in
  let wl := prop h opts "whitelistResponseHeaders" in
  let bl := prop h opts "blacklistResponseHeaders" in
  nullish config = false →
  ∃ l h2 ob r R st',
    formatResponse (h ++ [native]) (VRef (length h)) = Ret (VRef l, h2) ∧
    (h ++ [native]) `prefix_of` h2 ∧ (length h < l)%nat ∧
    h2 !! l = Some ob ∧
    getLoggableResponseFromAxiosResponse opts st = Ok (VRef l) st' ∧
    st_heap st' !! l = Some (<["headers" := VRef r]> ob) ∧
    st_heap st' !! r = Some R ∧
    (ordinary_lists wl bl →
     R = visible
           (own_props
              (h2 ++ [filter_options (default VUndef (ob !! "headers"))
                        wl bl])
              (default VUndef (ob !! "headers"))) wl bl) ∧
    (length h2 < r)%nat ∧
    (∀ i x, i ≠ l → h2 !! i = Some x → st_heap st' !! i = Some x) ∧
    st_clock st' = st_clock st ∧ st_log st' = st_log st.
Proof.
  intros Hfmt h axr config native wl bl Hcfg.
  pose proof (nullish_prop_defined _ _ _ Hcfg) as Haxr.
  pose proof (nullish_prop_defined _ _ _ Haxr) as Hopts.
  destruct (Hfmt (h ++ [native]) (VRef (length h)))
    as (l & h2 & Hcall & Hpre & Hl).
  rewrite length_app in Hl. simpl in Hl.
  destruct (lookup_lt_is_Some_2 h2 l) as [ob Hob]; [lia|].
  destruct (store_filtered_headers_run (with_heap h2 st) l ob wl bl Hob)
    as (r & R & st' & Hstore & Hl' & Hr' & HR & Hrl & Hkeep & Hck & Hlg).
  cbn [st_heap with_heap] in HR, Hkeep.
  exists l, h2, ob, r, R, st'.
  split; [done|]. split; [done|]. split; [lia|]. split; [done|].
  split; [|done].
  unfold getLoggableResponseFromAxiosResponse.
  rewrite !(bind_Ok _ _ _ _ _ (get_defined st opts _ Hopts)). fold h axr.
  rewrite (bind_Ok _ _ _ _ _ (get_defined st _ "config" Haxr)).
  fold h config.
  rewrite (bind_Ok _ _ _ _ _ (get_defined st _ "timestamp" Hcfg)). fold h.
  rewrite (bind_Ok _ _ st (st_clock st) st) by done.
  rewrite !(bind_Ok _ _ _ _ _ (get_defined st _ _ Haxr)). fold h.
  rewrite (bind_Ok _ _ st (VRef (length h)) (with_heap (h ++ [native]) st))
    by done.
  rewrite (bind_Ok _ _ _ (VRef l) (with_heap h2 st))
    by (unfold call_format; cbn [st_heap with_heap]; by rewrite Hcall).
  fold wl bl. exact Hstore.
Qed.

Lemma getLoggableRequestFromAxiosResponse_run st opts :
  formats_afresh formatRequest →
  let h := st_heap st in
  let axr := prop h opts "axiosResponse" in
  let config := prop h axr "config" in
  let native :=
    own_props h (prop h axr "request")
    ∪ {[ "timestamp" := prop h config "timestamp" ]} in
  let wl := prop h opts "whitelistRequestHeaders" in
  let bl := prop h opts "blacklistRequestHeaders" in
  nullish config = false →
  ∃ l h2 ob r R st',
    formatRequest (h ++ [native]) (VRef (length h)) = Ret (VRef l, h2) ∧
    (h ++ [native]) `prefix_of` h2 ∧ (length h < l)%nat ∧
    h2 !! l = Some ob ∧
    getLoggableRequestFromAxiosResponse opts st = Ok (VRef l) st' ∧
    st_heap st' !! l = Some (<["headers" := VRef r]> ob) ∧
    st_heap st' !! r = Some R ∧
    (ordinary_lists wl bl →
     R = visible
           (own_props
              (h2 ++ [filter_options (default VUndef (ob !! "headers"))
                        wl bl])
              (default VUndef (ob !! "headers"))) wl bl) ∧
    (length h2 < r)%nat ∧
    (∀ i x, i ≠ l → h2 !! i = Some x → st_heap st' !! i = Some x) ∧
    st_clock st' = st_clock st ∧ st_log st' = st_log st.
Proof.
  intros Hfmt h axr config native wl bl Hcfg.
  pose proof (nullish_prop_defined _ _ _ Hcfg) as Haxr.
  pose proof (nullish_prop_defined _ _ _ Haxr) as Hopts.
  destruct (Hfmt (h ++ [native]) (VRef (length h)))
    as (l & h2 & Hcall & Hpre & Hl).
  rewrite length_app in Hl. simpl in Hl.
  destruct (lookup_lt_is_Some_2 h2 l) as [ob Hob]; [lia|].
  destruct (store_filtered_headers_run (with_heap h2 st) l ob wl bl Hob)
    as (r & R & st' & Hstore & Hl' & Hr' & HR & Hrl & Hkeep & Hck & Hlg).
  cbn [st_heap with_heap] in HR, Hkeep.
  exists l, h2, ob, r, R, st'.
  split; [done|]. split; [done|]. split; [lia|]. split; [done|].
  split; [|done].
  unfold getLoggableRequestFromAxiosResponse.
  rewrite !(bind_Ok _ _ _ _ _ (get_defined st opts _ Hopts)). fold h axr.
  rewrite (bind_Ok _ _ _ _ _ (get_defined st _ "config" Haxr)).
  fold h config.
  rewrite (bind_Ok _ _ _ _ _ (get_defined st _ "timestamp" Hcfg)). fold h.
  rewrite (bind_Ok _ _ _ _ _ (get_defined st _ "request" Haxr)). fold h.
  rewrite (bind_Ok _ _ st (VRef (length h)) (with_heap (h ++ [native]) st))
    by done.
  rewrite (bind_Ok _ _ _ (VRef l) (with_heap h2 st))
    by (unfold call_format; cbn [st_heap with_heap]; by rewrite Hcall).
  fold wl bl. exact Hstore.
Qed.

(** What a normaliser leaves of the heap it was started in. *)
Lemma normaliser_frame (h h2 : heap) (native : obj) (l : loc) (heap' : heap) :
  (h ++ [native]) `prefix_of` h2 → (length h < l)%nat →
  (∀ i x, i ≠ l → h2 !! i = Some x → heap' !! i = Some x) →
  ∀ i x, h !! i = Some x → heap' !! i = Some x.
Proof.
  intros Hpre Hl Hkeep i x Hi. apply Hkeep.
  - apply lookup_lt_Some in Hi. lia.
  - apply (prefix_lookup_Some (h ++ [native]) h2 i x); [|done].
    by apply lookup_app_l_Some.
Qed.

Lemma header_of_stored st' l r (ob R : obj) k :
  st_heap st' !! l = Some (<["headers" := VRef r]> ob) →
  st_heap st' !! r = Some R →
  header_of (Ok (VRef l) st') k = R !! k.
Proof.
  intros Hl Hr. unfold header_of. rewrite (prop_live _ _ _ _ Hl).
  rewrite lookup_insert_eq. simpl. by rewrite Hr.
Qed.

Lemma prop_stored st' l r (ob : obj) k :
  st_heap st' !! l = Some (<["headers" := VRef r]> ob) →
  k ≠ "headers" →
  prop (st_heap st') (VRef l) k = default VUndef (ob !! k).
Proof.
  intros Hl Hk. rewrite (prop_live _ _ _ _ Hl).
  by rewrite lookup_insert_ne.
Qed.

(** X5. Whatever [formatResponse] makes of the response, so long as
    it returns a new object, and for response lists of ordinary names:
    a header named in the deny-list is never among the headers of the
    normalised response, and when an allow-list is given neither is a
    header it does not name. *)
Theorem response_headers_respect_policy
    (st : state) (opts : value) (k : string) :
  formats_afresh formatResponse →
  let h := st_heap st in
  let wl := prop h opts "whitelistResponseHeaders" in
  let bl := prop h opts "blacklistResponseHeaders" in
  nullish (prop h (prop h opts "axiosResponse") "config") = false →
  ordinary_lists wl bl →
  k ∈ names_of bl ∨ (truthy wl = true ∧ k ∉ names_of wl) →
  is_ok (getLoggableResponseFromAxiosResponse opts st) = true ∧
  header_of (getLoggableResponseFromAxiosResponse opts st) k = None.
Proof.
  intros Hfmt h wl bl Hcfg Hord Hk.
  destruct (getLoggableResponseFromAxiosResponse_run st opts Hfmt Hcfg)
    as (l & h2 & ob & r & R & st' & _ & _ & _ & _ & Hrun & Hl & Hr & HR & _).
  rewrite Hrun. split; [done|].
  rewrite (header_of_stored _ _ _ _ _ _ Hl Hr), (HR Hord). fold h wl bl.
  destruct Hk as [Hk | [Hwl Hk]].
  - by apply visible_blacklisted.
  - by apply visible_not_whitelisted.
Qed.

(** X6. The same for the request normaliser and request lists of
    ordinary names: whatever [formatRequest] returns as a new object, no
    header of the deny-list and, under an allow-list, no header outside
    it is among the headers of the normalised request. *)
Theorem request_headers_respect_policy
    (st : state) (opts : value) (k : string) :
  formats_afresh formatRequest →
  let h := st_heap st in
  let wl := prop h opts "whitelistRequestHeaders" in
  let bl := prop h opts "blacklistRequestHeaders" in
  nullish (prop h (prop h opts "axiosResponse") "config") = false →
  ordinary_lists wl bl →
  k ∈ names_of bl ∨ (truthy wl = true ∧ k ∉ names_of wl) →
  is_ok (getLoggableRequestFromAxiosResponse opts st) = true ∧
  header_of (getLoggableRequestFromAxiosResponse opts st) k = None.
Proof.
  intros Hfmt h wl bl Hcfg Hord Hk.
  destruct (getLoggableRequestFromAxiosResponse_run st opts Hfmt Hcfg)
    as (l & h2 & ob & r & R & st' & _ & _ & _ & _ & Hrun & Hl & Hr & HR & _).
  rewrite Hrun. split; [done|].
  rewrite (header_of_stored _ _ _ _ _ _ Hl Hr), (HR Hord). fold h wl bl.
  destruct Hk as [Hk | [Hwl Hk]].
  - by apply visible_blacklisted.
  - by apply visible_not_whitelisted.
Qed.

(** A field other than [headers] that the response formatter hands on
    reaches the normalised response as it stood in the native one. *)
Lemma response_field st opts k :
  formats_afresh formatResponse →
  keeps_field formatResponse k →
  k ≠ "headers" →
  let h := st_heap st in
  let axr := prop h opts "axiosResponse" in
  let config := prop h axr "config" in
  nullish config = false →
  ∃ l st',
    getLoggableResponseFromAxiosResponse opts st = Ok (VRef l) st' ∧
    prop (st_heap st') (VRef l) k =
      default VUndef
        (pseudoNativeResponse (st_clock st) (prop h config "timestamp")
           (prop h axr "status") (prop h axr "headers") !! k) ∧
    (∀ i x, h !! i = Some x → st_heap st' !! i = Some x).
Proof.
  intros Hfmt Hkeep Hk h axr config Hcfg.
  destruct (getLoggableResponseFromAxiosResponse_run st opts Hfmt Hcfg)
    as (l & h2 & ob & r & R & st' & Hcall & Hpre & Hlt & Hob & Hrun & Hl & _
        & _ & _ & Hframe & _).
  fold h axr config in Hcall, Hpre.
  match type of Hcall with
  | formatResponse (h ++ [?n]) _ = _ => set (native := n) in *
  end.
  destruct (Hkeep (h ++ [native]) (VRef (length h)))
    as (l' & h2' & Hcall' & _ & Hfield).
  rewrite Hcall in Hcall'. injection Hcall' as <- <-.
  rewrite (prop_live _ _ _ _ Hob), prop_fresh in Hfield.
  exists l, st'. split; [done|]. split.
  - by rewrite (prop_stored _ _ _ _ _ Hl Hk).
  - exact (normaliser_frame h h2 native l _ Hpre Hlt Hframe).
Qed.

(** X7. With a formatter that hands [statusCode] and [timestamp] on,
    the normalised response carries the status of the exchange as it
    is, whatever its value, and as its timestamp the ISO form of the
    clock reading taken in the call. *)
Theorem response_status_and_timestamp (st : state) (opts : value) :
  formats_afresh formatResponse →
  keeps_field formatResponse "statusCode" →
  keeps_field formatResponse "timestamp" →
  let h := st_heap st in
  let axr := prop h opts "axiosResponse" in
  nullish (prop h axr "config") = false →
  ∃ l st',
    getLoggableResponseFromAxiosResponse opts st = Ok (VRef l) st' ∧
    prop (st_heap st') (VRef l) "statusCode" = prop h axr "status" ∧
    prop (st_heap st') (VRef l) "timestamp" =
      VStr (toISOString (st_clock st)).
Proof.
  intros Hfmt Hstatus Hstamp h axr Hcfg.
  destruct (response_field st opts "statusCode" Hfmt Hstatus) as
    (l & st' & Hrun & Hs & _); [done | done |].
  destruct (response_field st opts "timestamp" Hfmt Hstamp) as
    (l' & st'' & Hrun' & Ht & _); [done | done |].
  rewrite Hrun in Hrun'. injection Hrun' as <- <-.
  exists l, st'. split; [done|]. split; [exact Hs | exact Ht].
Qed.

(** X8. When the config of the exchange was never stamped -- it has no
    [timestamp] --, the response time of the normalised response is
    [NaN]: the call neither fails nor falls back to zero. *)
Theorem responseTime_unstamped (st : state) (opts : value) :
  formats_afresh formatResponse →
  keeps_field formatResponse "responseTime" →
  let h := st_heap st in
  let config := prop h (prop h opts "axiosResponse") "config" in
  nullish config = false →
  prop h config "timestamp" = VUndef →
  ∃ l st',
    getLoggableResponseFromAxiosResponse opts st = Ok (VRef l) st' ∧
    prop (st_heap st') (VRef l) "responseTime" = VNaN.
Proof.
  intros Hfmt Hkeep h config Hcfg Hts.
  destruct (response_field st opts "responseTime" Hfmt Hkeep) as
    (l & st' & Hrun & Hrt & _); [done | done |].
  exists l, st'. split; [done|]. rewrite Hrt. fold h config.
  change (default VUndef (pseudoNativeResponse _ ?ts _ _ !! "responseTime"))
    with (elapsed (st_clock st) (Date_getTime ts)).
  by rewrite Hts.
Qed.

(** X9. The headers of the normalised response are exactly the headers
    of the object [formatResponse] returned, under the response lists
    -- the allow-list first, when there is one, then the deny-list --,
    for lists of ordinary names.  They are held in a new object: the
    header object the formatter returned and every object of the heap
    the call started in, the header object of the exchange among them,
    are as they were. *)
Theorem response_headers_visible
    (st : state) (opts : value) (l fl : loc) (h2 : heap) (Fm : obj) :
  formats_afresh formatResponse →
  let h := st_heap st in
  let axr := prop h opts "axiosResponse" in
  let config := prop h axr "config" in
  let native :=
    pseudoNativeResponse (st_clock st) (prop h config "timestamp")
      (prop h axr "status") (prop h axr "headers") in
  let wl := prop h opts "whitelistResponseHeaders" in
  let bl := prop h opts "blacklistResponseHeaders" in
  nullish config = false →
  formatResponse (h ++ [native]) (VRef (length h)) = Ret (VRef l, h2) →
  prop h2 (VRef l) "headers" = VRef fl →
  h2 !! fl = Some Fm →
  ordinary_lists wl bl →
  ∃ r st',
    getLoggableResponseFromAxiosResponse opts st = Ok (VRef l) st' ∧
    prop (st_heap st') (VRef l) "headers" = VRef r ∧
    (length h2 < r)%nat ∧
    st_heap st' !! r = Some (visible Fm wl bl) ∧
    (fl ≠ l → st_heap st' !! fl = Some Fm) ∧
    (∀ i x, h !! i = Some x → st_heap st' !! i = Some x).
Proof.
  intros Hfmt h axr config native wl bl Hcfg Hcall Hhd Hfl Hord.
  destruct (getLoggableResponseFromAxiosResponse_run st opts Hfmt Hcfg)
    as (l' & h2' & ob & r & R & st' & Hcall' & Hpre & Hlt & Hob & Hrun & Hl
        & Hr & HR & Hrl & Hframe & _).
  fold h axr config native wl bl in Hcall', Hpre, HR.
  rewrite Hcall in Hcall'. injection Hcall' as <- <-.
  rewrite (prop_live _ _ _ _ Hob) in Hhd.
  rewrite Hhd, (own_props_live _ _ _ _ Hfl) in HR.
  exists r, st'. split; [done|]. split; [|split; [done|split; [|split]]].
  - rewrite (prop_live _ _ _ _ Hl). by rewrite lookup_insert_eq.
  - by rewrite Hr, (HR Hord).
  - intros Hne. by apply Hframe.
  - exact (normaliser_frame h h2 native l _ Hpre Hlt Hframe).
Qed.

(** X10. The same for the request: the normalised request has the
    headers of the object [formatRequest] returned, under request lists
    of ordinary names, in a new object.  With a formatter that hands
    [timestamp] on, its timestamp is the stamp of the config -- unless
    the native request has a [timestamp] property of its own, which
    then takes its place.  The native request is as it was. *)
Theorem request_headers_and_timestamp
    (st : state) (opts : value) (rq l fl : loc) (h2 : heap) (rqob Fm : obj) :
  formats_afresh formatRequest →
  keeps_field formatRequest "timestamp" →
  let h := st_heap st in
  let axr := prop h opts "axiosResponse" in
  let config := prop h axr "config" in
  let native := rqob ∪ {[ "timestamp" := prop h config "timestamp" ]} in
  let wl := prop h opts "whitelistRequestHeaders" in
  let bl := prop h opts "blacklistRequestHeaders" in
  nullish config = false →
  prop h axr "request" = VRef rq →
  h !! rq = Some rqob →
  formatRequest (h ++ [native]) (VRef (length h)) = Ret (VRef l, h2) →
  prop h2 (VRef l) "headers" = VRef fl →
  h2 !! fl = Some Fm →
  ordinary_lists wl bl →
  ∃ r st',
    getLoggableRequestFromAxiosResponse opts st = Ok (VRef l) st' ∧
    prop (st_heap st') (VRef l) "headers" = VRef r ∧
    (length h2 < r)%nat ∧
    st_heap st' !! r = Some (visible Fm wl bl) ∧
    prop (st_heap st') (VRef l) "timestamp" =
      default (prop h config "timestamp") (rqob !! "timestamp") ∧
    st_heap st' !! rq = Some rqob.
Proof.
  intros Hfmt Hkeept h axr config native wl bl Hcfg Hreq Hrq Hcall Hhd Hfl
    Hord.
  destruct (getLoggableRequestFromAxiosResponse_run st opts Hfmt Hcfg)
    as (l' & h2' & ob & r & R & st' & Hcall' & Hpre & Hlt & Hob & Hrun & Hl
        & Hr & HR & Hrl & Hframe & _).
  fold h axr config wl bl in Hcall', Hpre, HR.
  rewrite Hreq in Hcall', Hpre.
  rewrite (own_props_at h rq rqob Hrq) in Hcall', Hpre.
  fold native in Hcall', Hpre.
  rewrite Hcall in Hcall'. injection Hcall' as <- <-.
  destruct (Hkeept (h ++ [native]) (VRef (length h)))
    as (l2 & h22 & Hcall2 & _ & Hft).
  rewrite Hcall in Hcall2. injection Hcall2 as <- <-.
  rewrite (prop_live _ _ _ _ Hob), prop_fresh in Hft.
  rewrite (prop_live _ _ _ _ Hob) in Hhd.
  rewrite Hhd, (own_props_live _ _ _ _ Hfl) in HR.
  exists r, st'. split; [done|].
  split; [|split; [done|split; [|split]]].
  - rewrite (prop_live _ _ _ _ Hl). by rewrite lookup_insert_eq.
  - by rewrite Hr, (HR Hord).
  - rewrite (prop_stored _ _ _ _ _ Hl) by done. rewrite Hft.
    unfold native. rewrite lookup_union, lookup_singleton_eq.
    by destruct (rqob !! "timestamp").
  - by apply (normaliser_frame h h2 native l _ Hpre Hlt Hframe).
Qed.

End Normalised.

Lemma simple_formatResponse_afresh :
  formats_afresh (formatResponse (Host := simple_host)).
Proof. apply copy_fields_afresh. Qed.

Lemma simple_formatRequest_afresh :
  formats_afresh (formatRequest (Host := simple_host)).
Proof. apply copy_fields_afresh. Qed.

Lemma simple_formatResponse_keeps k :
  k ∈ ["timestamp"; "statusCode"; "headers"; "responseTime"] →
  keeps_field (formatResponse (Host := simple_host)) k.
Proof. apply copy_fields_keeps. Qed.

Lemma simple_formatRequest_keeps k :
  k ∈ ["timestamp"; "method"; "url"; "path"; "headers"] →
  keeps_field (formatRequest (Host := simple_host)) k.
Proof. apply copy_fields_keeps. Qed.

(** [set-cookie] is on the response deny-list of the example. *)
Lemma response_headers_respect_policy_witness :
  is_ok (getLoggableResponseFromAxiosResponse (H := simple_host) (VRef 9)
           skewed_state) = true ∧
  header_of (getLoggableResponseFromAxiosResponse (H := simple_host) (VRef 9)
               skewed_state) "set-cookie" = None.
Proof.
  apply (response_headers_respect_policy (H := simple_host) skewed_state
           (VRef 9) "set-cookie" simple_formatResponse_afresh eq_refl).
  - split; [intros _|]; apply simple_ordinary; reflexivity.
  - left. vm_compute. constructor.
Defined.

(** [auth] is on both request lists of the example: the deny-list wins. *)
Lemma request_headers_respect_policy_witness :
  is_ok (getLoggableRequestFromAxiosResponse (H := simple_host) (VRef 9)
           request_options_state) = true ∧
  header_of (getLoggableRequestFromAxiosResponse (H := simple_host) (VRef 9)
               request_options_state) "auth" = None.
Proof.
  apply (request_headers_respect_policy (H := simple_host)
           request_options_state (VRef 9) "auth" simple_formatRequest_afresh
           eq_refl).
  - split; [intros _|]; apply simple_ordinary; reflexivity.
  - left. vm_compute. constructor.
Defined.

Lemma response_status_and_timestamp_witness :
  ∃ l st',
    getLoggableResponseFromAxiosResponse (H := simple_host) (VRef 9)
      skewed_state = Ok (VRef l) st' ∧
    prop (st_heap st') (VRef l) "statusCode" = VNum 404 ∧
    prop (st_heap st') (VRef l) "timestamp" = VStr "2023-12-31T23:59:59.250Z".
Proof.
  exact (response_status_and_timestamp (H := simple_host) skewed_state
           (VRef 9) simple_formatResponse_afresh
           (simple_formatResponse_keeps "statusCode" ltac:(set_solver))
           (simple_formatResponse_keeps "timestamp" ltac:(set_solver))
           eq_refl).
Defined.

Lemma responseTime_unstamped_witness :
  ∃ l st',
    getLoggableResponseFromAxiosResponse (H := simple_host) (VRef 3)
      unstamped_state = Ok (VRef l) st' ∧
    prop (st_heap st') (VRef l) "responseTime" = VNaN.
Proof.
  exact (responseTime_unstamped (H := simple_host) unstamped_state (VRef 3)
           simple_formatResponse_afresh
           (simple_formatResponse_keeps "responseTime" ltac:(set_solver))
           eq_refl eq_refl).
Defined.

(** Of the two response headers of the example, [content-type] is
    logged and [set-cookie] is not. *)
Lemma response_headers_visible_witness :
  ∃ r st',
    getLoggableResponseFromAxiosResponse (H := simple_host) (VRef 9)
      skewed_state = Ok (VRef 11) st' ∧
    prop (st_heap st') (VRef 11) "headers" = VRef r ∧
    st_heap st' !! r = Some {[ "content-type" := VStr "text/plain" ]} ∧
    st_heap st' !! 4%nat =
      Some {[ "content-type" := VStr "text/plain"; "set-cookie" := VStr "s" ]}.
Proof.
  destruct (response_headers_visible (H := simple_host) skewed_state (VRef 9)
              11%nat 4%nat _
              {[ "content-type" := VStr "text/plain";
                 "set-cookie" := VStr "s" ]}
              simple_formatResponse_afresh eq_refl eq_refl eq_refl eq_refl)
    as (r & st' & Hrun & Hhd & _ & Hr & Hfl & _).
  { split; [intros _|]; apply simple_ordinary; reflexivity. }
  exists r, st'. split; [exact Hrun|]. split; [exact Hhd|].
  split; [exact Hr | apply Hfl; discriminate].
Defined.

(** The native request of the example has no [timestamp] of its own,
    and of its two headers [host] is logged. *)
Lemma request_headers_and_timestamp_witness :
  ∃ r st',
    getLoggableRequestFromAxiosResponse (H := simple_host) (VRef 9)
      request_options_state = Ok (VRef 11) st' ∧
    st_heap st' !! r = Some {[ "host" := VStr "example.com" ]} ∧
    prop (st_heap st') (VRef 11) "timestamp" =
      VStr "2024-01-01T00:00:00.000Z".
Proof.
  destruct (request_headers_and_timestamp (H := simple_host)
              request_options_state (VRef 9) 2%nat 11%nat 3%nat _
              {[ "method" := VStr "POST"; "path" := VStr "/x";
                 "headers" := VRef 3 ]}
              {[ "host" := VStr "example.com"; "auth" := VStr "t" ]}
              simple_formatRequest_afresh
              (simple_formatRequest_keeps "timestamp" ltac:(set_solver))
              eq_refl eq_refl eq_refl eq_refl eq_refl eq_refl)
    as (r & st' & Hrun & _ & _ & Hr & Hts & _).
  { split; [intros _|]; apply simple_ordinary; reflexivity. }
  exists r, st'. split; [exact Hrun|]. split; [exact Hr | exact Hts].
Defined.

(** *** Stamping the request *)

Section Stamp.
Context `{Host}.

Lemma logRequest_run st c (cob : obj) :
  st_heap st !! c = Some cob →
  ∃ st',
    logRequest (VRef c) st = Ok (VRef c) st' ∧
    st_heap st' !! c =
      Some (<["timestamp" := VStr (toISOString (st_clock st))]> cob).
Proof.
  intros Hc. unfold logRequest, bind, Date_now, set, ret.
  eexists. split; [done|]. cbn [st_heap with_heap].
  rewrite list_lookup_alter_eq. by rewrite Hc.
Qed.

(** X11. On a config object, [logRequest] returns that same object
    with its [timestamp] set to the ISO form of the current clock
    reading -- in the place of any earlier stamp --; every other
    property of the config and every other object are as they were,
    and nothing is logged. *)
Theorem logRequest_stamps (st : state) (c : loc) (cob : obj) :
  st_heap st !! c = Some cob →
  ∃ st',
    logRequest (VRef c) st = Ok (VRef c) st' ∧
    st_heap st' !! c =
      Some (<["timestamp" := VStr (toISOString (st_clock st))]> cob) ∧
    (∀ k, k ≠ "timestamp" →
       prop (st_heap st') (VRef c) k = prop (st_heap st) (VRef c) k) ∧
    (∀ i, i ≠ c → st_heap st' !! i = st_heap st !! i) ∧
    length (st_heap st') = length (st_heap st) ∧
    st_clock st' = st_clock st ∧ st_log st' = st_log st.
Proof.
  intros Hc. unfold logRequest, bind, Date_now, set, ret.
  eexists. split; [done|]. cbn [st_heap with_heap st_clock st_log].
  assert (Hnew : alter (λ o : obj, <["timestamp" :=
                          VStr (toISOString (st_clock st))]> o) c (st_heap st)
                 !! c =
                 Some (<["timestamp" := VStr (toISOString (st_clock st))]> cob)).
  { rewrite list_lookup_alter_eq. by rewrite Hc. }
  split; [exact Hnew|]. split; [|split; [|split; [|done]]].
  - intros k Hk. rewrite (prop_live _ _ _ _ Hnew), (prop_live _ _ _ _ Hc).
    by rewrite lookup_insert_ne.
  - intros i Hi. by rewrite list_lookup_alter_ne.
  - apply length_alter.
Qed.

(** X12. Stamping and timing compose.  After [logRequest] has stamped
    a config at clock reading [t0], which the host's [Date.parse] reads
    back from its ISO form, the response normaliser, run at any later
    state that kept the heap and on an exchange of that config, gives
    the response time [now - t0] (with a formatter that hands
    [responseTime] on). *)
Theorem stamp_then_response_time (st : state) (c : loc) (cob : obj) :
  st_heap st !! c = Some cob →
  Date_parse (toISOString (st_clock st)) = Some (st_clock st) →
  formats_afresh formatResponse →
  keeps_field formatResponse "responseTime" →
  ∃ st1,
    logRequest (VRef c) st = Ok (VRef c) st1 ∧
    ∀ st2 opts,
      st_heap st1 `prefix_of` st_heap st2 →
      prop (st_heap st2) (prop (st_heap st2) opts "axiosResponse") "config" =
        VRef c →
      ∃ l st3,
        getLoggableResponseFromAxiosResponse opts st2 = Ok (VRef l) st3 ∧
        prop (st_heap st3) (VRef l) "responseTime" =
          VNum (st_clock st2 - st_clock st).
Proof.
  intros Hc Hround Hfmt Hkeep.
  destruct (logRequest_run st c cob Hc) as (st1 & Hrun & Hc1).
  exists st1. split; [done|]. intros st2 opts Hpre Hcfg.
  destruct (response_field st2 opts "responseTime" Hfmt Hkeep) as
    (l & st3 & Hrun3 & Hrt & _); [done | by rewrite Hcfg |].
  exists l, st3. split; [done|]. rewrite Hrt, Hcfg.
  change (default VUndef (pseudoNativeResponse _ ?ts _ _ !! "responseTime"))
    with (elapsed (st_clock st2) (Date_getTime ts)).
  assert (Hc2 : st_heap st2 !! c =
                Some (<["timestamp" := VStr (toISOString (st_clock st))]> cob))
    by exact (prefix_lookup_Some _ _ _ _ Hc1 Hpre).
  rewrite (prop_live _ _ _ _ Hc2), lookup_insert_eq. simpl.
  by rewrite Hround.
Qed.

End Stamp.

(** The config of the examples, stamped anew 250 ms after its first
    stamp: the url is as it was. *)
Lemma logRequest_stamps_witness :
  ∃ st',
    logRequest (H := simple_host) (VRef 0) example_state = Ok (VRef 0) st' ∧
    prop (st_heap st') (VRef 0) "timestamp" =
      VStr "2024-01-01T00:00:00.250Z" ∧
    prop (st_heap st') (VRef 0) "url" = VStr "http://example.com/x".
Proof.
  destruct (logRequest_stamps (H := simple_host) example_state 0%nat
              {[ "url" := VStr "http://example.com/x";
                 "method" := VStr "post"; "headers" := VRef 1;
                 "timestamp" := VStr "2024-01-01T00:00:00.000Z" ]} eq_refl)
    as (st' & Hrun & Hc & Hother & _).
  exists st'. split; [exact Hrun|]. split.
  - unfold prop, get_prop. rewrite Hc. reflexivity.
  - rewrite (Hother "url"); [reflexivity | discriminate].
Defined.

(** Stamped at 00:00:00.250 and answered 1234 ms later. *)
Lemma stamp_then_response_time_witness :
  ∃ l st3,
    getLoggableResponseFromAxiosResponse (H := simple_host) (VRef 9)
      later_state = Ok (VRef l) st3 ∧
    prop (st_heap st3) (VRef l) "responseTime" = VNum 1234.
Proof.
  destruct (stamp_then_response_time (H := simple_host) example_state 0%nat
              {[ "url" := VStr "http://example.com/x";
                 "method" := VStr "post"; "headers" := VRef 1;
                 "timestamp" := VStr "2024-01-01T00:00:00.000Z" ]}
              eq_refl eq_refl simple_formatResponse_afresh
              (simple_formatResponse_keeps "responseTime" ltac:(set_solver)))
    as (st1 & Hrun & Hlater).
  vm_compute in Hrun. injection Hrun as <-.
  apply (Hlater later_state (VRef 9)).
  - exists [ {[ "axiosResponse" := VRef 5 ]} ]. vm_compute. reflexivity.
  - reflexivity.
Defined.

(** *** The entry [logResponse] writes *)

Lemma prop_kept h h' v k0 k :
  (∀ i x, h !! i = Some x → h' !! i = Some x) →
  nullish (prop h v k0) = false →
  prop h' v k = prop h v k.
Proof.
  intros Hkeep Hk0. unfold prop in *. destruct v; try done.
  unfold get_prop in *. destruct (h !! l) as [ob|] eqn:Hl.
  - by rewrite (Hkeep l ob Hl).
  - simpl in Hk0. by rewrite lookup_empty in Hk0.
Qed.

Lemma request_line_kept h h' l r (ob R : obj) :
  (∀ i x, h !! i = Some x → h' !! i = Some x) →
  h !! l = Some (<["headers" := VRef r]> ob) →
  h !! r = Some R →
  request_line h' (VRef l) = request_line h (VRef l).
Proof.
  intros Hkeep Hl Hr. unfold request_line.
  rewrite !(prop_live h' l _ _ (Hkeep _ _ Hl)), !(prop_live h l _ _ Hl).
  rewrite lookup_insert_eq. cbn [default js_or truthy].
  by rewrite (prop_live h' r _ _ (Hkeep _ _ Hr)), (prop_live h r _ _ Hr).
Qed.

Section LoggedEntry.
Context `{Host}.

(** X13. For an exchange that has a config, formatters that return a
    new object, and a response formatter that hands [statusCode] on,
    [logResponse] makes exactly one call, [logger.info].  Its payload is
    a new object holding the two normalised objects: under [request]
    the object the request normaliser returned for the exchange and the
    request lists of the options, under [response] the one the response
    normaliser returned for the exchange and the response lists, both
    as the normalisers left them.  Its message is the summary line of
    that normalised request, a space, and the status of the exchange. *)
Theorem logResponse_entry (o : options) (st : state) (axiosResponse : value) :
  formats_afresh formatRequest →
  formats_afresh formatResponse →
  keeps_field formatResponse "statusCode" →
  let h := st_heap st in
  nullish (prop h axiosResponse "config") = false →
  ∃ request st1 response st2 payload st',
    getLoggableRequestFromAxiosResponse (VRef (length h))
      (with_heap (h ++ [request_options o axiosResponse]) st) =
      Ok (VRef request) st1 ∧
    getLoggableResponseFromAxiosResponse (VRef (length (st_heap st1)))
      (with_heap (st_heap st1 ++ [response_options o axiosResponse]) st1) =
      Ok (VRef response) st2 ∧
    logResponse o axiosResponse st = Ok axiosResponse st' ∧
    emitted st st' =
      [Entry LvInfo (VRef payload)
         (request_line (st_heap st1) (VRef request) +:+ " " +:+
          to_string (prop h axiosResponse "status"))] ∧
    st_heap st' !! payload =
      Some {[ "request" := VRef request; "response" := VRef response ]} ∧
    (∀ i x, st_heap st1 !! i = Some x → st_heap st' !! i = Some x) ∧
    st_heap st2 `prefix_of` st_heap st'.
Proof.
  intros Hreq Hres Hstatus h Hcfg. unfold logResponse.
  match goal with
  | |- context [bind (alloc ?ob) _] =>
      change ob with (request_options o axiosResponse)
  end.
  set (ropts := request_options o axiosResponse).
  rewrite (bind_Ok _ _ st (VRef (length h)) (with_heap (h ++ [ropts]) st))
    by done.
  destruct (getLoggableRequestFromAxiosResponse_run
              (with_heap (h ++ [ropts]) st) (VRef (length h)) Hreq)
    as (l1 & h2 & ob1 & r1 & R1 & st1 & _ & Hpre1 & Hlt1 & _ & Hrun1 & Hl1
        & Hr1 & _ & _ & Hkeep1 & _ & Hlog1).
  { cbn [st_heap with_heap]. rewrite prop_fresh.
    change (default VUndef (ropts !! "axiosResponse")) with axiosResponse.
    rewrite (prop_grow h); [done | by apply prefix_app_r | done]. }
  cbn [st_heap with_heap st_log] in Hpre1, Hlt1, Hkeep1, Hlog1.
  pose proof (normaliser_frame _ _ _ _ _ Hpre1 Hlt1 Hkeep1) as Hframe1.
  rewrite (bind_Ok _ _ _ _ _ Hrun1).
  match goal with
  | |- context [bind (alloc ?ob) _] =>
      change ob with (response_options o axiosResponse)
  end.
  set (sopts := response_options o axiosResponse).
  set (h3 := st_heap st1 ++ [sopts]).
  rewrite (bind_Ok _ _ st1 (VRef (length (st_heap st1))) (with_heap h3 st1))
    by done.
  assert (Hframe3 : ∀ i x, h !! i = Some x → h3 !! i = Some x).
  { intros i x Hi. unfold h3. apply lookup_app_l_Some, Hframe1.
    by apply lookup_app_l_Some. }
  assert (Haxr3 : prop h3 (VRef (length (st_heap st1))) "axiosResponse" =
                  axiosResponse).
  { unfold h3. by rewrite prop_fresh. }
  destruct (getLoggableResponseFromAxiosResponse_run
              (with_heap h3 st1) (VRef (length (st_heap st1))) Hres)
    as (l2 & h4 & ob2 & r2 & R2 & st2 & Hcall & Hpre2 & Hlt2 & Hob2 & Hrun2
        & Hl2 & _ & _ & _ & Hkeep2 & _ & Hlog2).
  { cbn [st_heap with_heap]. rewrite Haxr3.
    by rewrite (prop_kept h h3 axiosResponse "config"). }
  cbn [st_heap with_heap st_log st_clock] in Hcall, Hpre2, Hlt2, Hkeep2, Hlog2.
  pose proof (normaliser_frame _ _ _ _ _ Hpre2 Hlt2 Hkeep2) as Hframe4.
  rewrite Haxr3 in Hcall.
  match type of Hcall with
  | formatResponse (h3 ++ [?n]) _ = _ => set (native := n) in *
  end.
  destruct (Hstatus (h3 ++ [native]) (VRef (length h3)))
    as (l' & h4' & Hcall' & _ & Hfield).
  rewrite Hcall in Hcall'. injection Hcall' as <- <-.
  rewrite (prop_live _ _ _ _ Hob2), prop_fresh in Hfield.
  change (default VUndef (native !! "statusCode"))
    with (prop h3 axiosResponse "status") in Hfield.
  rewrite (prop_kept h h3 axiosResponse "config") in Hfield by done.
  rewrite (bind_Ok _ _ _ _ _ Hrun2).
  assert (Hframe12 : ∀ i x, st_heap st1 !! i = Some x →
                            st_heap st2 !! i = Some x).
  { intros i x Hi. apply Hframe4. unfold h3. by apply lookup_app_l_Some. }
  destruct (makeRequestLine_run st2 (VRef l1) eq_refl)
    as (st5 & Hline & Hlog5 & Hpre5).
  rewrite (request_line_kept (st_heap st1) (st_heap st2) l1 r1 ob1 R1
             Hframe12 Hl1 Hr1) in Hline.
  rewrite (bind_Ok _ _ _ _ _ Hline).
  match goal with
  | |- context [bind (alloc ?ob) _] => set (pl := ob)
  end.
  rewrite (bind_Ok _ _ st5 (VRef (length (st_heap st5)))
             (with_heap (st_heap st5 ++ [pl]) st5)) by done.
  assert (Hframe6 : ∀ i x, st_heap st2 !! i = Some x →
                           (st_heap st5 ++ [pl]) !! i = Some x).
  { intros i x Hi. apply lookup_app_l_Some.
    exact (prefix_lookup_Some _ _ _ _ Hi Hpre5). }
  rewrite (bind_Ok _ _ _ _ _
             (get_defined (with_heap (st_heap st5 ++ [pl]) st5) (VRef l2)
                "statusCode" eq_refl)).
  cbn [st_heap with_heap].
  rewrite (prop_live _ _ _ _ (Hframe6 _ _ Hl2)).
  rewrite lookup_insert_ne by done. rewrite Hfield.
  unfold bind, emit, ret. cbn [st_heap with_heap st_clock st_log].
  exists l1, st1, l2, st2, (length (st_heap st5)). eexists.
  split; [exact Hrun1|]. split; [exact Hrun2|]. split; [done|].
  cbn [st_heap st_log]. split; [|split; [|split]].
  - unfold emitted. rewrite Hlog5, Hlog2, Hlog1. cbn [st_log].
    by rewrite drop_app_length.
  - by rewrite list_lookup_middle.
  - intros i x Hi. by apply Hframe6, Hframe12.
  - etrans; [exact Hpre5 | by apply prefix_app_r].
Qed.

End LoggedEntry.

(** On the example exchange the entry reads [POST example.com/x 404]. *)
Lemma logResponse_entry_witness :
  ∃ request st1 response st2 payload st',
    getLoggableRequestFromAxiosResponse (H := simple_host) (VRef 9)
      (with_heap (example_heap ++ [request_options example_options (VRef 5)])
         example_state) = Ok (VRef request) st1 ∧
    getLoggableResponseFromAxiosResponse (H := simple_host)
      (VRef (length (st_heap st1)))
      (with_heap (st_heap st1 ++ [response_options example_options (VRef 5)])
         st1) = Ok (VRef response) st2 ∧
    logResponse (H := simple_host) example_options (VRef 5) example_state =
      Ok (VRef 5) st' ∧
    emitted example_state st' =
      [Entry LvInfo (VRef payload)
         (request_line (st_heap st1) (VRef request) +:+ " " +:+ "404")] ∧
    st_heap st' !! payload =
      Some {[ "request" := VRef request; "response" := VRef response ]}.
Proof.
  destruct (logResponse_entry (H := simple_host) example_options example_state
              (VRef 5) simple_formatRequest_afresh simple_formatResponse_afresh
              (simple_formatResponse_keeps "statusCode" ltac:(set_solver))
              eq_refl)
    as (request & st1 & response & st2 & payload & st' & Hrun1 & Hrun2 & Hrun
        & Hlog & Hpayload & _).
  exists request, st1, response, st2, payload, st'.
  split; [exact Hrun1|]. split; [exact Hrun2|]. split; [exact Hrun|].
  split; [exact Hlog | exact Hpayload].
Defined.

(** *** More on the header filter and the summary line *)

(** X16. The fallbacks of [makeRequestLine] stop at the first object
    found.  When the request has a [headers] object without a [host]
    entry, the host of the line is empty, whatever [_headers] holds;
    and when the request has neither [url] nor [path], the line ends in
    the text [undefined]. *)
Theorem makeRequestLine_missing_parts
    (st : state) (rq hl : loc) (rqob Hm : obj) :
  let h := st_heap st in
  h !! rq = Some rqob →
  rqob !! "headers" = Some (VRef hl) →
  h !! hl = Some Hm →
  Hm !! "host" = None →
  rqob !! "url" = None →
  rqob !! "path" = None →
  ∃ st',
    makeRequestLine (VRef rq) st =
      Ok (to_string (default VUndef (rqob !! "method")) +:+ " undefined") st'.
Proof.
  intros h Hrq Hhd Hhl Hhost Hurl Hpath.
  destruct (makeRequestLine_run st (VRef rq) eq_refl) as (st' & Hrun & _).
  exists st'. rewrite Hrun. f_equal. unfold request_line. fold h.
  rewrite !(prop_live h rq rqob _ Hrq), Hhd, Hurl, Hpath.
  cbn [default js_or truthy].
  by rewrite (prop_live h hl Hm _ Hhl), Hhost.
Qed.

(** The filter of the examples, applied to its own result. *)
Lemma filterHeaders_idempotent_witness :
  ∃ r st1 R,
    filterHeaders (H := simple_host) (VRef 9)
      (State (example_heap ++
              [ {[ "headers" := VRef 3;
                   "whitelistHeaders" := VNames ["host"; "auth"];
                   "blacklistHeaders" := VNames ["auth"] ]} ]) 0 []) =
      Ok (VRef r) st1 ∧
    st_heap st1 !! r = Some R ∧
    ∃ r2 st3,
      filterHeaders (H := simple_host) (VRef (length (st_heap st1)))
        (with_heap
           (st_heap st1 ++
            [ {[ "headers" := VRef r;
                 "whitelistHeaders" := VNames ["host"; "auth"];
                 "blacklistHeaders" := VNames ["auth"] ]} ]) st1) =
        Ok (VRef r2) st3 ∧
      st_heap st3 !! r2 = Some R.
Proof.
  destruct (filterHeaders_idempotent (H := simple_host)
              (State (example_heap ++
                [ {[ "headers" := VRef 3;
                     "whitelistHeaders" := VNames ["host"; "auth"];
                     "blacklistHeaders" := VNames ["auth"] ]} ]) 0 [])
              (VRef 9) 3%nat
              {[ "host" := VStr "example.com"; "auth" := VStr "t" ]})
    as (r & st1 & R & Hrun & HR & Hagain); [reflexivity | reflexivity | |].
  { split; [intros _|]; apply simple_ordinary; reflexivity. }
  exists r, st1, R. split; [exact Hrun|]. split; [exact HR|].
  apply Hagain; cbn [st_heap with_heap].
  - by apply prefix_app_r.
  - unfold get_prop. rewrite list_lookup_middle by reflexivity. reflexivity.
  - rewrite prop_fresh. reflexivity.
  - rewrite prop_fresh. reflexivity.
Defined.

(** Off the ordinary names the filter need not be idempotent.  Over the
    header map [{a: "xyz"}], with [["a.length"]] as allow-list and as
    deny-list, the first pass returns [{a: {}}] and the second, on that
    map, [{}]. *)
Example filterHeaders_path_twice :
  ∃ st1 r2 st2,
    filterHeaders (H := simple_host) (VRef 1)
      (State [ {[ "a" := VStr "xyz" ]};
               {[ "headers" := VRef 0;
                  "whitelistHeaders" := VNames ["a.length"];
                  "blacklistHeaders" := VNames ["a.length"] ]} ] 0 []) =
      Ok (VRef 5) st1 ∧
    st_heap st1 !! 5%nat = Some {[ "a" := VRef 4 ]} ∧
    st_heap st1 !! 4%nat = Some ∅ ∧
    filterHeaders (H := simple_host) (VRef 6)
      (with_heap
         (st_heap st1 ++
          [ {[ "headers" := VRef 5;
               "whitelistHeaders" := VNames ["a.length"];
               "blacklistHeaders" := VNames ["a.length"] ]} ]) st1) =
      Ok (VRef r2) st2 ∧
    st_heap st2 !! r2 = Some ∅.
Proof.
  eexists _, _, _. split; [vm_compute; reflexivity|].
  split; [reflexivity|]. split; [reflexivity|].
  split; [vm_compute; reflexivity | reflexivity].
Qed.

(** The options of the examples' normalisers have no [headers]. *)
Lemma filterHeaders_without_headers_witness :
  ∃ r st',
    filterHeaders (H := simple_host) (VRef 9) skewed_state = Ok (VRef r) st' ∧
    st_heap st' !! r = Some ∅.
Proof.
  exact (filterHeaders_without_headers (H := simple_host) skewed_state
           (VRef 9) eq_refl eq_refl).
Defined.

(** The config of [no_url_state], read as a request: a header object
    without [host], and neither [url] nor [path]. *)
Lemma makeRequestLine_missing_parts_witness :
  ∃ st', makeRequestLine (VRef 0) no_url_state = Ok "get undefined" st'.
Proof.
  exact (makeRequestLine_missing_parts no_url_state 0%nat 1%nat
           {[ "method" := VStr "get"; "headers" := VRef 1 ]}
           {[ "auth" := VStr "t" ]}
           eq_refl eq_refl eq_refl eq_refl eq_refl eq_refl).
Defined.

(** *** An exchange without a config *)

Lemma nullish_prop_fresh h v k (ob : obj) :
  nullish (prop h v k) = true → ob !! k = None →
  nullish (prop (h ++ [ob]) v k) = true.
Proof.
  intros Hv Hob. unfold prop in *. destruct v; try done.
  unfold get_prop in *. destruct (h !! l) as [x|] eqn:Hl.
  - by rewrite (lookup_app_l_Some _ _ _ _ Hl).
  - apply lookup_ge_None in Hl.
    destruct (decide (l = length h)) as [-> | Hne].
    + rewrite list_lookup_middle by done. simpl. by rewrite Hob.
    + rewrite lookup_ge_None_2; [by simpl; rewrite lookup_empty|].
      rewrite length_app. simpl. lia.
Qed.

Section WithoutConfig.
Context `{Host}.

(** X17. For an exchange without a config -- [config] is missing or
    [null] --, [logResponse] ends in a [TypeError]: the caller receives
    a rejection in the place of the exchange, nothing is logged, and no
    existing object is changed. *)
Theorem logResponse_without_config
    (o : options) (st : state) (axiosResponse : value) :
  nullish (prop (st_heap st) axiosResponse "config") = true →
  settle_value (logResponse o axiosResponse st) = Rejected TypeError ∧
  st_log (final (logResponse o axiosResponse st)) = st_log st ∧
  st_heap st `prefix_of` st_heap (final (logResponse o axiosResponse st)).
Proof.
  intros Hcfg. unfold logResponse.
  match goal with
  | |- context [bind (alloc ?ob) _] => set (ropts := ob)
  end.
  set (h := st_heap st) in *.
  set (st1 := with_heap (h ++ [ropts]) st).
  cut (getLoggableRequestFromAxiosResponse (VRef (length h)) st1 =
       Throw TypeError st1).
  { intros Hthrow.
    rewrite (bind_Ok _ _ st (VRef (length h)) st1) by done.
    rewrite (bind_Throw _ _ _ _ _ Hthrow). simpl.
    split; [done|]. split; [done|]. by apply prefix_app_r. }
  assert (Hcfg1 : nullish (prop (h ++ [ropts]) axiosResponse "config") = true)
    by (by apply nullish_prop_fresh).
  unfold getLoggableRequestFromAxiosResponse.
  rewrite !(bind_Ok _ _ _ _ _ (get_defined st1 (VRef (length h)) _ eq_refl)).
  unfold st1 at 1 2 3. cbn [st_heap with_heap]. rewrite !prop_fresh.
  change (default VUndef (ropts !! "axiosResponse")) with axiosResponse.
  destruct (nullish axiosResponse) eqn:Haxr.
  - by rewrite (bind_Throw _ _ _ _ _ (get_nullish st1 _ "config" Haxr)).
  - rewrite (bind_Ok _ _ _ _ _ (get_defined st1 _ "config" Haxr)).
    unfold st1 at 1. cbn [st_heap with_heap].
    by rewrite (bind_Throw _ _ _ _ _ (get_nullish st1 _ "timestamp" Hcfg1)).
Qed.

End WithoutConfig.

(** The config of the examples has no [config] of its own: handed to
    [logResponse] as an exchange, it makes the handler fail. *)
Lemma logResponse_without_config_witness :
  settle_value
    (logResponse (H := simple_host) example_options (VRef 0) example_state) =
    Rejected TypeError ∧
  st_log (final (logResponse (H := simple_host) example_options (VRef 0)
                   example_state)) = [].
Proof.
  destruct (logResponse_without_config (H := simple_host) example_options
              example_state (VRef 0) eq_refl) as (Hs & Hl & _).
  split; [exact Hs | exact Hl].
Defined.
